(** * A shallow embedding of the bracket-update scripts

    The scripts [scripts/scrape_games.py], [scripts/append_games_to_sheet.py]
    and [scripts/overwrite_tab_from_csv.py] are embedded here:

    - Python text values are ASCII strings ([String.string]); Python's
      [str.strip] strips the ASCII characters for which [str.isspace] holds,
      [str.lower] maps [A-Z] to [a-z];
    - JSON scalars read from the scoreboard are the inductive [pyval];
    - the spreadsheet is a grid of string cells, read and written by
      rectangular ranges, in a small state-and-exception monad [M] that also
      records every request sent to the spreadsheet and every printed line. *)

From Stdlib Require Import Bool Arith ZArith String Ascii List Lia.
From Stdlib Require Import Numbers.DecimalString.
Import ListNotations.
Open Scope string_scope.
Open Scope list_scope.

(* ------------------------------------------------------------------ *)
(** ** Python values and string primitives *)

(** A JSON scalar as Python sees it after [json.loads]. *)
Inductive pyval :=
| PNone
| PBool (b : bool)
| PInt (z : Z)
| PStr (s : string).

(** [bool(x)] *)
Definition truthy (x : pyval) : bool :=
  match x with
  | PNone => false
  | PBool b => b
  | PInt z => negb (Z.eqb z 0)
  | PStr s => negb (String.eqb s "")
  end.

Definition nat_str (n : nat) : string :=
  NilEmpty.string_of_uint (Nat.to_uint n).

Definition Z_str (z : Z) : string :=
  NilEmpty.string_of_int (Z.to_int z).

(** [str(x)] *)
Definition py_str (x : pyval) : string :=
  match x with
  | PNone => "None"
  | PBool true => "True"
  | PBool false => "False"
  | PInt z => Z_str z
  | PStr s => s
  end.

(** [c.isspace()] on an ASCII character: tab, line feed, vertical tab,
    form feed, carriage return, the four separators 0x1C-0x1F, space. *)
Definition is_space (c : ascii) : bool :=
  let n := nat_of_ascii c in
  (Nat.leb 9 n && Nat.leb n 13) || (Nat.leb 28 n && Nat.leb n 32).

Fixpoint lstrip (s : string) : string :=
  match s with
  | EmptyString => EmptyString
  | String c s' => if is_space c then lstrip s' else s
  end.

Fixpoint rev_str (s : string) : string :=
  match s with
  | EmptyString => EmptyString
  | String c s' => rev_str s' ++ String c EmptyString
  end.

Definition rstrip (s : string) : string := rev_str (lstrip (rev_str s)).

(** [s.strip()] *)
Definition strip (s : string) : string := rstrip (lstrip s).

Definition lower_char (c : ascii) : ascii :=
  let n := nat_of_ascii c in
  if Nat.leb 65 n && Nat.leb n 90 then ascii_of_nat (n + 32) else c.

(** [s.lower()] *)
Fixpoint lower (s : string) : string :=
  match s with
  | EmptyString => EmptyString
  | String c s' => String (lower_char c) (lower s')
  end.

Definition in_strs (s : string) (l : list string) : bool :=
  existsb (String.eqb s) l.

(** [normalize] of [append_games_to_sheet.py] (the same function is
    [norm] in [overwrite_tab_from_csv.py]). *)
Definition normalize (x : pyval) : string :=
  match x with
  | PNone => ""
  | _ => let s := strip (py_str x) in
         if in_strs (lower s) ["nan"; "none"; "null"] then "" else s
  end.

(** [normalize] applied to a cell, which is always a [str]. *)
Definition normalize_s (s : string) : string := normalize (PStr s).

(** [clean] of [scrape_games.py]. *)
Definition clean (x : pyval) : string :=
  match x with
  | PNone => ""
  | _ => let s := strip (py_str x) in
         if in_strs (lower s) [""; "nan"; "none"; "null"] then "" else s
  end.

(** [row_key]: the six cells A-F of a row, normalized. *)
Definition row_key (vals : list string) : list string := map normalize_s vals.

(* ------------------------------------------------------------------ *)
(** ** [scrape_games.py]: the scoreboard and the extracted games *)

(** Python's [int(x)]; [None] where [int] raises. *)
Definition is_digit (c : ascii) : bool :=
  let n := nat_of_ascii c in Nat.leb 48 n && Nat.leb n 57.

Definition digit_val (c : ascii) : Z := Z.of_nat (nat_of_ascii c - 48).

(** digits, single underscores allowed between two digits *)
Fixpoint parse_udigits (s : string) (acc : Z) (after_us : bool) : option Z :=
  match s with
  | EmptyString => if after_us then None else Some acc
  | String c s' =>
      if is_digit c then parse_udigits s' (acc * 10 + digit_val c)%Z false
      else if Ascii.eqb c "_"%char && negb after_us
           then parse_udigits s' acc true
           else None
  end.

Definition parse_dec (s : string) : option Z :=
  match s with
  | String c s' => if is_digit c then parse_udigits s' (digit_val c) false else None
  | EmptyString => None
  end.

Definition py_int_str (s : string) : option Z :=
  match strip s with
  | String c r =>
      if Ascii.eqb c "-"%char then option_map Z.opp (parse_dec r)
      else if Ascii.eqb c "+"%char then parse_dec r
      else parse_dec (String c r)
  | EmptyString => None
  end.

Definition py_int (x : pyval) : option Z :=
  match x with
  | PNone => None
  | PBool b => Some (if b then 1%Z else 0%Z)
  | PInt z => Some z
  | PStr s => py_int_str s
  end.

(** [x == "home"] and the like *)
Definition py_eq_str (x : pyval) (s : string) : bool :=
  match x with PStr t => String.eqb t s | _ => false end.

(** The fields of the scoreboard JSON the scraper reads; an absent key is
    [PNone] (what [.get] and [safe_get] return), an absent or [null] list is
    [[]] (the [or []] of the source). *)
Record competitor := {
  homeAway : pyval;          (* c.get("homeAway") *)
  team_displayName : pyval;  (* safe_get(c, ["team", "displayName"]) *)
  score : pyval              (* c.get("score") *)
}.

Record venue := {
  fullName : pyval;          (* safe_get(venue, ["fullName"]) *)
  city : pyval;              (* safe_get(venue, ["address", "city"]) *)
  state : pyval              (* safe_get(venue, ["address", "state"]) *)
}.

Record competition := {
  status_completed : pyval;  (* safe_get(comp, ["status","type","completed"], False) *)
  competitors : list competitor;
  neutralSite : pyval;       (* comp.get("neutralSite", False) *)
  comp_venue : venue
}.

Record event := {
  ev_id : pyval;             (* ev.get("id") *)
  competitions : list competition
}.

Definition loc_sep : string := " â€” ".

Definition combine_location (v : venue) : string :=
  let name := clean (fullName v) in
  let cty := clean (city v) in
  let st := clean (state v) in
  let place := String.concat ", " (filter (fun p => negb (String.eqb p "")) [cty; st]) in
  if negb (String.eqb name "") && negb (String.eqb place "")
  then (name ++ loc_sep ++ place)%string
  else if negb (String.eqb name "") then name else place.

(** The dict [rec] of [parse_completed_games]: a key that was never set is
    [None]; a score that was set to Python [None] is [Some None]. *)
Record rec_t := {
  r_is_neutral : bool;
  r_location : string;
  r_home_team : option string;
  r_home_score : option (option Z);
  r_away_team : option string;
  r_away_score : option (option Z)
}.

Definition set_home (r : rec_t) (t : string) (sc : option Z) : rec_t :=
  {| r_is_neutral := r_is_neutral r; r_location := r_location r;
     r_home_team := Some t; r_home_score := Some sc;
     r_away_team := r_away_team r; r_away_score := r_away_score r |}.

Definition set_away (r : rec_t) (t : string) (sc : option Z) : rec_t :=
  {| r_is_neutral := r_is_neutral r; r_location := r_location r;
     r_home_team := r_home_team r; r_home_score := r_home_score r;
     r_away_team := Some t; r_away_score := Some sc |}.

(** the body of [for c in competitors] *)
Definition competitor_step (r : rec_t) (c : competitor) : rec_t :=
  let side := homeAway c in
  let team_name := clean (team_displayName c) in
  let sc := match score c with PNone => None | x => py_int x end in
  if py_eq_str side "home" then set_home r team_name sc
  else if py_eq_str side "away" then set_away r team_name sc
  else r.

(** The yielded dict. *)
Record game := {
  home_team : string;
  home_score : Z;
  away_team : string;
  away_score : Z;
  is_neutral : bool;
  location : string
}.

(** One iteration of the loop of [parse_completed_games]: [None] is
    [continue]. *)
Definition parse_event (ev : event) : option game :=
  match competitions ev with
  | [] => None
  | comp :: _ =>
      if negb (truthy (status_completed comp)) then None
      else
        let cs := competitors comp in
        if negb (Nat.eqb (List.length cs) 2) then None
        else
          let neutral := truthy (neutralSite comp) in
          let loc := combine_location (comp_venue comp) in
          let r0 := {| r_is_neutral := neutral; r_location := loc;
                       r_home_team := None; r_home_score := None;
                       r_away_team := None; r_away_score := None |} in
          let r := fold_left competitor_step cs r0 in
          match r_home_team r, r_away_team r, r_home_score r, r_away_score r with
          | Some ht, Some at_, Some hs, Some as_ =>
              match hs, as_ with
              | Some h, Some a =>
                  Some {| home_team := ht; home_score := h; away_team := at_;
                          away_score := a; is_neutral := r_is_neutral r;
                          location := r_location r |}
              | _, _ => None
              end
          | _, _, _, _ => None
          end
  end.

(** [parse_completed_games] (a generator; its list of yields). *)
Fixpoint parse_completed_games (events : list event) : list game :=
  match events with
  | [] => []
  | ev :: evs =>
      match parse_event ev with
      | Some g => g :: parse_completed_games evs
      | None => parse_completed_games evs
      end
  end.

(** The dict appended by [build_rows]. *)
Record row := {
  winner_team : string;
  winner_score : Z;
  loser_team : string;
  loser_score : Z;
  row_location : string;
  site_designation : string
}.

Definition build_row (g : game) : row :=
  let home_win := Z.gtb (home_score g) (away_score g) in
  let wt := if home_win then home_team g else away_team g in
  let ws := Z.max (home_score g) (away_score g) in
  let lt := if home_win then away_team g else home_team g in
  let ls := Z.min (home_score g) (away_score g) in
  let site := if is_neutral g then "N" else if home_win then "H" else "A" in
  {| winner_team := wt; winner_score := ws; loser_team := lt;
     loser_score := ls; row_location := location g; site_designation := site |}.

Definition build_rows (games : list game) : list row := map build_row games.

(** [fetch_scoreboard_all]: [page offset] is the [events] list of the
    response to the request at that offset ([data.get("events", []) or []]);
    every response is taken to be a success. The loop [while True] is run
    with [fuel] iterations; [None] is running out of fuel. [seen] is the
    set of identifiers, [all_events] the events kept, most recent first.
    [py_in x l] is [x in l] (Python equality). *)
(** Python [x == y] on scalars ([True == 1]). *)
Definition py_eqb (x y : pyval) : bool :=
  match x, y with
  | PNone, PNone => true
  | PBool a, PBool b => Bool.eqb a b
  | PInt a, PInt b => Z.eqb a b
  | PBool a, PInt b | PInt b, PBool a => Z.eqb (if a then 1 else 0)%Z b
  | PStr a, PStr b => String.eqb a b
  | _, _ => false
  end.

Definition py_in (x : pyval) (l : list pyval) : bool := existsb (py_eqb x) l.

(** [for ev in events: ...]: returns [(seen, all_events, new)] *)
Fixpoint scan_page (events : list event) (seen : list pyval)
    (all_events : list event) (new : nat) : list pyval * list event * nat :=
  match events with
  | [] => (seen, all_events, new)
  | ev :: evs =>
      let i := ev_id ev in
      if truthy i && negb (py_in i seen)
      then scan_page evs (i :: seen) (ev :: all_events) (S new)
      else scan_page evs seen all_events new
  end.

Fixpoint fetch_loop (fuel : nat) (page : nat -> list event) (page_size : nat)
    (offset : nat) (seen : list pyval) (all_events : list event)
    : list nat * option (list event) :=
  match fuel with
  | O => ([], None)
  | S fuel' =>
      let events := page offset in
      match events with
      | [] => ([offset], Some (rev all_events))
      | _ =>
          let '(seen', all', new) := scan_page events seen all_events 0 in
          if Nat.eqb new 0 || Nat.ltb (length events) page_size
          then ([offset], Some (rev all'))
          else let '(offs, res) :=
                 fetch_loop fuel' page page_size (offset + page_size) seen' all' in
               (offset :: offs, res)
      end
  end.

(** The offsets requested, in order, and the events returned. *)
Definition fetch_scoreboard_all (fuel : nat) (page : nat -> list event)
    (page_size : nat) : list nat * option (list event) :=
  fetch_loop fuel page page_size 0 [] [].

(* ------------------------------------------------------------------ *)
(** ** The spreadsheet and the effects of the sheet scripts *)

(** A worksheet: [height] rows in its grid; [cell r c] is the value shown
    at row [r] (1-based) and column [c] (0-based, A = 0). Cells hold the
    strings written to them. *)
Record sheet := {
  height : nat;
  cell : nat -> nat -> string
}.

(** A rectangular A1 range: columns [c_lo..c_hi], rows [r_lo..r_hi];
    [r_hi = None] is a whole-column range such as ["A:A"]. *)
Record range := {
  c_lo : nat;
  r_lo : nat;
  c_hi : nat;
  r_hi : option nat
}.

(** [f"A{a}:F{b}"] *)
Definition rng_AF (a b : nat) : range :=
  {| c_lo := 0; r_lo := a; c_hi := 5; r_hi := Some b |}.

(** ["A:A"] *)
Definition rng_colA : range :=
  {| c_lo := 0; r_lo := 1; c_hi := 0; r_hi := None |}.

Fixpoint drop_empty_cells (l : list string) : list string :=
  match l with
  | "" :: l' => drop_empty_cells l'
  | _ => l
  end.

Fixpoint drop_empty_rows (l : list (list string)) : list (list string) :=
  match l with
  | [] :: l' => drop_empty_rows l'
  | _ => l
  end.

(** The values API leaves out the trailing empty cells of each row and the
    trailing empty rows of the range. *)
Definition trim_cells (r : list string) : list string :=
  rev (drop_empty_cells (rev r)).

Definition trim_rows (rs : list (list string)) : list (list string) :=
  rev (drop_empty_rows (rev rs)).

Definition last_row (sh : sheet) (rg : range) : nat :=
  match r_hi rg with
  | Some r => Nat.min r (height sh)
  | None => height sh
  end.

(** [ws.get(rng)] *)
Definition sheet_get (sh : sheet) (rg : range) : list (list string) :=
  trim_rows
    (map (fun r => trim_cells (map (cell sh r) (seq (c_lo rg) (S (c_hi rg) - c_lo rg))))
         (seq (r_lo rg) (S (last_row sh rg) - r_lo rg))).

Definition in_range (rg : range) (r c : nat) : bool :=
  Nat.leb (r_lo rg) r && match r_hi rg with Some h => Nat.leb r h | None => true end
  && Nat.leb (c_lo rg) c && Nat.leb c (c_hi rg).

(** [ws.update(rng, vals)]: the value [vals[i][j]] goes to row [r_lo + i],
    column [c_lo + j]; the grid grows to hold the rows written. *)
Definition sheet_update (sh : sheet) (rg : range) (vals : list (list string)) : sheet :=
  {| height := Nat.max (height sh) (r_lo rg + length vals - 1);
     cell := fun r c =>
       if in_range rg r c then
         match nth_error vals (r - r_lo rg) with
         | Some rw => match nth_error rw (c - c_lo rg) with
                      | Some v => v
                      | None => cell sh r c
                      end
         | None => cell sh r c
         end
       else cell sh r c |}.

(** [ws.clear()] *)
Definition sheet_clear (sh : sheet) : sheet :=
  {| height := height sh; cell := fun _ _ => "" |}.

(** The requests sent to the spreadsheet. *)
Inductive request :=
| GetReq (rg : range)
| UpdateReq (rg : range) (vals : list (list string))
| ClearReq.

(** A line printed to standard output; [RowRepr r] is [print(r)] of a list
    of cells (Python's [repr] of the list). *)
Inductive line :=
| Text (s : string)
| RowRepr (r : list string).

(** The exceptions the scripts can end with. *)
Inductive exn :=
| KeyError (k : string)                              (* os.environ[k] *)
| EmptyDataError                                     (* pd.read_csv of a file with no content *)
| MissingColumns (missing found : list string).      (* RuntimeError of main *)

Inductive result (A : Type) :=
| Ok (a : A)
| Err (e : exn).
Arguments Ok {A} a.
Arguments Err {A} e.

Record world := {
  ws : sheet;
  requests : list request;
  out : list line
}.

(** A state and exception monad over [world]. *)
Definition M (A : Type) : Type := world -> world * result A.

Definition ret {A} (a : A) : M A := fun w => (w, Ok a).

Definition bind {A B} (m : M A) (k : A -> M B) : M B :=
  fun w => match m w with
           | (w', Ok a) => k a w'
           | (w', Err e) => (w', Err e)
           end.

Notation "x <- m ;; k" := (bind m (fun x => k))
  (at level 61, m at next level, right associativity).
Notation "m ;;; k" := (bind m (fun _ => k))
  (at level 61, right associativity).

Definition raise {A} (e : exn) : M A := fun w => (w, Err e).

Definition print (l : line) : M unit :=
  fun w => ({| ws := ws w; requests := requests w; out := out w ++ [l] |}, Ok tt).

Definition ws_get (rg : range) : M (list (list string)) :=
  fun w => ({| ws := ws w; requests := requests w ++ [GetReq rg]; out := out w |},
            Ok (sheet_get (ws w) rg)).

Definition ws_update (rg : range) (vals : list (list string)) : M unit :=
  fun w => ({| ws := sheet_update (ws w) rg vals;
               requests := requests w ++ [UpdateReq rg vals]; out := out w |}, Ok tt).

Definition ws_clear : M unit :=
  fun w => ({| ws := sheet_clear (ws w); requests := requests w ++ [ClearReq];
               out := out w |}, Ok tt).

Fixpoint mapM_ {A} (f : A -> M unit) (l : list A) : M unit :=
  match l with
  | [] => ret tt
  | x :: l' => f x ;;; mapM_ f l'
  end.

(** [get_client]: [env] is [os.environ.get("GOOGLE_SA_JSON")]; the
    credentials, once present, are taken to authorize. *)
Definition get_client (env : option string) : M unit :=
  match env with
  | Some _ => ret tt
  | None => raise (KeyError "GOOGLE_SA_JSON")
  end.

(** What [pd.read_csv(path, dtype=str).fillna("")] returns: the header and
    the data rows, every cell a string. *)
Record dataframe := {
  columns : list string;
  data : list (list string)
}.

(** [df.empty] *)
Definition df_empty (df : dataframe) : bool :=
  match columns df, data df with
  | [], _ | _, [] => true
  | _, _ => false
  end.

Fixpoint index_of (c : string) (cols : list string) : option nat :=
  match cols with
  | [] => None
  | c' :: cols' =>
      if String.eqb c c' then Some 0 else option_map S (index_of c cols')
  end.

(** [r[c]] *)
Definition df_at (cols : list string) (r : list string) (c : string) : string :=
  match index_of c cols with
  | Some i => nth i r ""
  | None => ""
  end.

Definition col_letter_loop := fix go (fuel n : nat) (s : string) : string :=
  match fuel with
  | O => s
  | S fuel' =>
      if Nat.eqb n 0 then s
      else go fuel' ((n - 1) / 26) (String (ascii_of_nat (65 + (n - 1) mod 26)) s)
  end.

(** [col_letter] of [overwrite_tab_from_csv.py] *)
Definition col_letter (n : nat) : string := col_letter_loop n n "".

(** The A1 text of a range. *)
Definition a1 (rg : range) : string :=
  match r_hi rg with
  | Some h => col_letter (S (c_lo rg)) ++ nat_str (r_lo rg) ++ ":"
              ++ col_letter (S (c_hi rg)) ++ nat_str h
  | None => col_letter (S (c_lo rg)) ++ ":" ++ col_letter (S (c_hi rg))
  end.

(* ------------------------------------------------------------------ *)
(** ** [append_games_to_sheet.py] *)

Definition CSV_COLS : list string :=
  ["date"; "winner_team"; "winner_score"; "loser_team"; "loser_score";
   "site_designation"].

(** The text of the source's check-mark and magnifier prefixes. *)
Definition OKM : string := "âœ…".
Definition MAG : string := "ðŸ”Ž".

(** the loop of [last_nonempty_row_in_col_a]:
    [for i, row in enumerate(col, start=1)] *)
Fixpoint scan_col (col : list (list string)) (i last : nat) : nat :=
  match col with
  | [] => last
  | row :: col' =>
      let v := match row with v :: _ => v | [] => "" end in
      if negb (String.eqb (normalize_s v) "") then scan_col col' (S i) i
      else scan_col col' (S i) last
  end.

Definition last_nonempty_row_in_col_a : M nat :=
  col <- ws_get rng_colA ;;
  ret (scan_col col 1 0).

Fixpoint list_str_eqb (a b : list string) : bool :=
  match a, b with
  | [], [] => true
  | x :: a', y :: b' => String.eqb x y && list_str_eqb a' b'
  | _, _ => false
  end.

(** [k in existing_keys] *)
Definition key_in (k : list string) (keys : list (list string)) : bool :=
  existsb (list_str_eqb k) keys.

(** [(r + [""] * 6)[:6]] *)
Definition pad6 (r : list string) : list string := firstn 6 (r ++ repeat "" 6).

(** The lookback window [max(1, last_a - lookback + 1)]..[last_a]. *)
Definition lb_start (last_a lookback : nat) : nat :=
  Nat.max 1 (last_a - lookback + 1).

(** Lines 79-89: the set [existing_keys]. *)
Definition build_existing_keys (last_a lookback : nat) : M (list (list string)) :=
  if Nat.ltb 0 last_a && Nat.ltb 0 lookback then
    existing_rows <- ws_get (rng_AF (lb_start last_a lookback) last_a) ;;
    ret (map (fun r => row_key (pad6 r)) existing_rows)
  else ret [].

(** Lines 92-100: [csv_rows] and [dupes]; [rows] are the rows of
    [df[CSV_COLS]]. *)
Fixpoint prepare_loop (keys : list (list string)) (rows : list (list string))
    (csv_rows : list (list string)) (dupes : nat) : list (list string) * nat :=
  match rows with
  | [] => (rev csv_rows, dupes)
  | r :: rows' =>
      let vals := map normalize_s r in
      let k := row_key vals in
      if key_in k keys then prepare_loop keys rows' csv_rows (S dupes)
      else prepare_loop keys rows' (vals :: csv_rows) dupes
  end.

Definition prepare_rows (keys rows : list (list string)) : list (list string) * nat :=
  prepare_loop keys rows [] 0.

Definition lastn {A} (n : nat) (l : list A) : list A := skipn (length l - n) l.

(** [main] from the parsed arguments on: [env] is the environment's
    [GOOGLE_SA_JSON], [title] the spreadsheet's title, [tab] [args.tab],
    [csv] the result of [pd.read_csv(...).fillna("")] ([None] where it
    raises), [dedupe_lookback] [args.dedupe_lookback]. *)
Definition append_main (env : option string) (title tab : string)
    (csv : option dataframe) (dedupe_lookback : Z) : M unit :=
  match csv with
  | None => raise EmptyDataError
  | Some df =>
  if df_empty df then print (Text "CSV is empty. Nothing to write.")
  else
  let missing := filter (fun c => negb (in_strs c (columns df))) CSV_COLS in
  match missing with
  | _ :: _ => raise (MissingColumns missing (columns df))
  | [] =>
  let rows := map (fun r => map (df_at (columns df) r) CSV_COLS) (data df) in
  get_client env ;;;
  last_a <- last_nonempty_row_in_col_a ;;
  let start_row := last_a + 1 in
  let lookback := Z.to_nat (Z.max 0 dedupe_lookback) in
  existing_keys <- build_existing_keys last_a lookback ;;
  let '(csv_rows, dupes) := prepare_rows existing_keys rows in
  match csv_rows with
  | [] =>
      mapM_ print
        [Text (OKM ++ " Opened sheet: " ++ title);
         Text (OKM ++ " Tab: " ++ tab);
         Text (OKM ++ " Last non-empty row in column A: " ++ nat_str last_a);
         Text (OKM ++ " Dedupe lookback: " ++ nat_str lookback ++ " row(s)");
         Text (OKM ++ " CSV rows: " ++ nat_str (length (data df))
               ++ " | duplicates skipped: " ++ nat_str dupes ++ " | new rows: 0");
         Text (OKM ++ " Nothing to append.")]
  | _ =>
      let end_row := start_row + length csv_rows - 1 in
      let write_range := rng_AF start_row end_row in
      ws_update write_range csv_rows ;;;
      written_back <- ws_get write_range ;;
      mapM_ print
        ([Text (OKM ++ " Opened sheet: " ++ title);
          Text (OKM ++ " Tab: " ++ tab);
          Text (OKM ++ " Last non-empty row in column A: " ++ nat_str last_a);
          Text (OKM ++ " Dedupe lookback: " ++ nat_str lookback ++ " row(s)");
          Text (OKM ++ " CSV rows: " ++ nat_str (length (data df))
                ++ " | duplicates skipped: " ++ nat_str dupes
                ++ " | new rows written: " ++ nat_str (length csv_rows));
          Text (OKM ++ " Intended write range: " ++ a1 write_range);
          Text (OKM ++ " Rows read back from sheet: " ++ nat_str (length written_back));
          Text ""; Text (MAG ++ " First 3 rows read back:")]
         ++ map RowRepr (firstn 3 written_back)
         ++ [Text ""; Text (MAG ++ " Last 3 rows read back:")]
         ++ map RowRepr (lastn 3 written_back))
  end
  end
  end.

(** Running [main] on a worksheet, nothing sent or printed yet. *)
Definition run_append (sh : sheet) (env : option string) (title tab : string)
    (csv : option dataframe) (dedupe_lookback : Z) : world * result unit :=
  append_main env title tab csv dedupe_lookback
    {| ws := sh; requests := []; out := [] |}.

(** The exit status of the process. *)
Definition exit_status {A} (r : result A) : nat :=
  match r with Ok _ => 0 | Err _ => 1 end.

(* ------------------------------------------------------------------ *)
(** ** [overwrite_tab_from_csv.py] *)

Definition OKM2 : string := "✅".

(** [main] from the parsed arguments on; [clear_below] is
    [args.clear_below]. *)
Definition overwrite_main (env : option string) (tab : string)
    (csv : option dataframe) (clear_below : Z) : M unit :=
  match csv with
  | None => raise EmptyDataError
  | Some df =>
  get_client env ;;;
  let values := columns df :: map (map normalize_s) (data df) in
  let end_row := length values in
  let end_col := length (columns df) in
  let rng := {| c_lo := 0; r_lo := 1; c_hi := end_col - 1; r_hi := Some end_row |} in
  ws_clear ;;;
  ws_update rng values ;;;
  (if Z.ltb 0 clear_below then
     let n := Z.to_nat clear_below in
     let blank_start := end_row + 1 in
     let blank_end := end_row + n in
     let blank_rng := {| c_lo := 0; r_lo := blank_start; c_hi := end_col - 1;
                         r_hi := Some blank_end |} in
     ws_update blank_rng (repeat (repeat "" end_col) n)
   else ret tt) ;;;
  print (Text (OKM2 ++ " Overwrote tab '" ++ tab ++ "' with " ++ nat_str (length (data df))
               ++ " rows and " ++ nat_str (length (columns df)) ++ " cols.")) ;;;
  print (Text (OKM2 ++ " Wrote range: " ++ a1 rng))
  end.

Definition run_overwrite (sh : sheet) (env : option string) (tab : string)
    (csv : option dataframe) (clear_below : Z) : world * result unit :=
  overwrite_main env tab csv clear_below {| ws := sh; requests := []; out := [] |}.

(* ------------------------------------------------------------------ *)
(** ** Predicates used to state the properties, and concrete inputs *)

(** Column A of row [r] holds a non-empty value after [normalize]. *)
Definition col_a_nonempty (sh : sheet) (r : nat) : bool :=
  negb (String.eqb (normalize_s (cell sh r 0)) "").

(** [v = row[0] if row else ""] is non-empty after [normalize]. *)
Definition nonempty_row (row : list string) : bool :=
  negb (String.eqb (normalize_s (match row with v :: _ => v | [] => "" end)) "").

(** A column A with values at rows 1-5 and 9, empty elsewhere. *)
Definition gap_sheet : sheet :=
  {| height := 1000;
     cell := fun r c => if Nat.eqb c 0 && ((Nat.leb 1 r && Nat.leb r 5) || Nat.eqb r 9)
                        then "Duke" else "" |}.

(** The score of a competitor as [parse_completed_games] reads it. *)
Definition competitor_score (c : competitor) : option Z :=
  match score c with PNone => None | x => py_int x end.

Definition count_side (cs : list competitor) (side : string) : nat :=
  length (filter (fun c => py_eq_str (homeAway c) side) cs).

(** The selection criteria of the extractor, stated on the event. *)
Definition extractable (ev : event) : bool :=
  match competitions ev with
  | [] => false
  | comp :: _ =>
      let cs := competitors comp in
      truthy (status_completed comp)
      && Nat.eqb (length cs) 2
      && Nat.eqb (count_side cs "home") 1
      && Nat.eqb (count_side cs "away") 1
      && forallb (fun c => match competitor_score c with Some _ => true | None => false end) cs
  end.

Definition mk_competitor (side team sc : string) : competitor :=
  {| homeAway := PStr side; team_displayName := PStr team; score := PStr sc |}.

(** A completed event on 2025-11-03: home [hteam] scores [hs], away
    [ateam] scores [as_]; [neutral] is [neutralSite]. *)
Definition sample_event (hteam hs ateam as_ : string) (neutral : bool) : event :=
  {| ev_id := PStr "401820000";
     competitions :=
       [{| status_completed := PBool true;
           competitors := [mk_competitor "home" hteam hs; mk_competitor "away" ateam as_];
           neutralSite := PBool neutral;
           comp_venue := {| fullName := PStr "Cameron Indoor Stadium";
                            city := PStr "Durham"; state := PStr "NC" |} |}] |}.

(** The fields of a row the scenarios look at. *)
Definition row_fields (r : row) : string * Z * string * Z * string :=
  (winner_team r, winner_score r, loser_team r, loser_score r, site_designation r).

(** The winner is the competitor with the strictly greater score. *)
Definition strict_winner (g : game) : Prop :=
  (home_score g > away_score g /\ winner_team (build_row g) = home_team g)%Z
  \/ (away_score g > home_score g /\ winner_team (build_row g) = away_team g)%Z.

(** The truthy identifiers of a page, in order. *)
Definition ids_of (evs : list event) : list pyval :=
  map ev_id (filter (fun e => truthy (ev_id e)) evs).

(** The identifiers met on the pages before page [j] (offsets [0],
    [page_size], ..., [(j - 1) * page_size]). *)
Definition seen_before (page : nat -> list event) (page_size j : nat) : list pyval :=
  concat (map (fun i => ids_of (page (i * page_size))) (seq 0 j)).

(** The termination policy: the page is empty, or it brings no identifier
    not met before, or it is shorter than the page size. *)
Definition page_stops (seen : list pyval) (evs : list event) (page_size : nat) : Prop :=
  evs = []
  \/ (forall e, In e evs -> truthy (ev_id e) = true -> py_in (ev_id e) seen = true)
  \/ length evs < page_size.

(** No two events carry equal identifiers. *)
Definition distinct_ids (evs : list event) : Prop :=
  ForallOrdPairs (fun e1 e2 => py_eqb (ev_id e1) (ev_id e2) = false) evs.

(** A scoreboard answering pages of 2: the second page repeats an event of
    the first, the third is short. *)
Definition ev_with_id (i : string) : event := {| ev_id := PStr i; competitions := [] |}.

Definition sample_page (offset : nat) : list event :=
  match offset with
  | 0 => [ev_with_id "1"; ev_with_id "2"]
  | 2 => [ev_with_id "2"; ev_with_id "3"]
  | 4 => [ev_with_id "4"]
  | _ => []
  end.

(** A CSV with its header and no data row. *)
Definition header_only : dataframe := {| columns := CSV_COLS; data := [] |}.

(** A CSV whose second row is all ["nan"]: it normalizes to six empty
    cells, which the sheet does not return on reading back. *)
Definition nan_row_csv : dataframe :=
  {| columns := CSV_COLS;
     data := [["11-03-2025"; "Duke"; "80"; "Army"; "60"; "H"];
              ["nan"; "nan"; "nan"; "nan"; "nan"; "nan"]] |}.

(** A CSV of two games, each with its date. *)
Definition two_games_csv : dataframe :=
  {| columns := CSV_COLS;
     data := [["11-03-2025"; "Duke"; "80"; "Army"; "60"; "H"];
              ["11-04-2025"; "Kansas"; "71"; "Rice"; "64"; "N"]] |}.

(** A tab holding 700 rows of an earlier write, and a CSV of 500 data rows. *)
Definition prev700 : sheet :=
  {| height := 1000;
     cell := fun r c => if Nat.leb 1 r && Nat.leb r 700 && Nat.leb c 5 then "stale" else "" |}.

Definition csv500 : dataframe :=
  {| columns := CSV_COLS;
     data := repeat ["11-03-2025"; "Duke"; "80"; "Army"; "60"; "H"] 500 |}.

(** The cell the full refresh leaves at row [r], column [c]: the header on
    row 1, the normalized data rows on rows 2.., nothing elsewhere. *)
Definition refreshed_cell (df : dataframe) (r c : nat) : string :=
  let m := length (columns df) in
  if Nat.eqb r 1 && Nat.ltb c m then nth c (columns df) ""
  else if Nat.leb 2 r && Nat.leb r (length (data df) + 1) && Nat.ltb c m
  then normalize_s (nth c (nth (r - 2) (data df) []) "")
  else "".

(** [t] does not begin with whitespace. *)
Definition starts_ns (t : string) : bool :=
  match t with
  | EmptyString => true
  | String c _ => negb (is_space c)
  end.

(** [True == 1]: booleans compare as the integers 0 and 1. *)
Definition py_num (x : pyval) : pyval :=
  match x with PBool b => PInt (if b then 1 else 0)%Z | _ => x end.

(** What the loop over one page keeps: [seen] lists the identifiers of the
    kept events, which are truthy and pairwise distinct. *)
Definition fetch_inv (seen : list pyval) (all_events : list event) : Prop :=
  seen = map ev_id all_events
  /\ Forall (fun e => truthy (ev_id e) = true) all_events
  /\ distinct_ids all_events.

(** Reading a column label back into its number ("A" = 1, "Z" = 26,
    "AA" = 27): the inverse [col_letter] is compared with. *)
Fixpoint col_number_acc (s : string) (acc : nat) : nat :=
  match s with
  | EmptyString => acc
  | String ch s' => col_number_acc s' (acc * 26 + (nat_of_ascii ch - 64))
  end.

Definition col_number (s : string) : nat := col_number_acc s 0.

(** Every character is one of [A-Z]. *)
Fixpoint all_upper (s : string) : bool :=
  match s with
  | EmptyString => true
  | String ch s' =>
      Nat.leb 65 (nat_of_ascii ch) && Nat.leb (nat_of_ascii ch) 90 && all_upper s'
  end.

(** The missing required columns of a CSV, as [main] computes them. *)
Definition missing_cols (df : dataframe) : list string :=
  filter (fun c => negb (in_strs c (columns df))) CSV_COLS.

(** The rows of [nan_row_csv] with the columns in another order and an
    extra column. *)
Definition nan_row_csv_reordered : dataframe :=
  {| columns := ["site_designation"; "notes"; "loser_score"; "loser_team"; "winner_score";
                 "winner_team"; "date"];
     data := [["H"; "exhibition"; "60"; "Army"; "80"; "Duke"; "11-03-2025"];
              ["nan"; ""; "nan"; "nan"; "nan"; "nan"; "nan"]] |}.

(** The rows [df[CSV_COLS]] of a CSV, as [main] iterates them. *)
Definition selected_rows (df : dataframe) : list (list string) :=
  map (fun r => map (df_at (columns df) r) CSV_COLS) (data df).

(** The row has a cell that is not empty. *)
Definition has_nonempty (r : list string) : bool :=
  existsb (fun v => negb (String.eqb v "")) r.

(** The team names of a partial record are all cleaned strings. *)
Definition names_clean (r : rec_t) : Prop :=
  (forall t, r_home_team r = Some t -> clean (PStr t) = t)
  /\ (forall t, r_away_team r = Some t -> clean (PStr t) = t).

(* ------------------------------------------------------------------ *)
(** ** Lemmas on the string primitives *)

Section StringLemmas.
Local Open Scope string_scope.

Lemma str_app_nil_r (s : string) : s ++ "" = s.
Proof. induction s; simpl; congruence. Qed.

Lemma str_app_assoc (a b c : string) : (a ++ b) ++ c = a ++ (b ++ c).
Proof. induction a; simpl; congruence. Qed.

Lemma rev_str_app (a b : string) : rev_str (a ++ b) = rev_str b ++ rev_str a.
Proof.
  induction a as [|c a IH]; simpl.
  - now rewrite str_app_nil_r.
  - rewrite IH. apply str_app_assoc.
Qed.

Lemma rev_str_involutive (s : string) : rev_str (rev_str s) = s.
Proof.
  induction s as [|c s IH]; simpl; [reflexivity|].
  rewrite rev_str_app, IH. reflexivity.
Qed.

Lemma lstrip_starts_ns (s : string) : starts_ns (lstrip s) = true.
Proof.
  induction s as [|c s IH]; simpl; [reflexivity|].
  destruct (is_space c) eqn:E; [exact IH|]. simpl. now rewrite E.
Qed.

Lemma lstrip_id (t : string) : starts_ns t = true -> lstrip t = t.
Proof.
  destruct t as [|c t]; simpl; [reflexivity|].
  intro H. destruct (is_space c); [discriminate|reflexivity].
Qed.

Lemma lstrip_idem (s : string) : lstrip (lstrip s) = lstrip s.
Proof. apply lstrip_id, lstrip_starts_ns. Qed.

(** [lstrip] returns a suffix; it is empty only on all-whitespace input. *)
Lemma lstrip_suffix (u : string) : exists p, u = p ++ lstrip u.
Proof.
  induction u as [|c u [p Hp]]; simpl.
  - now exists "".
  - destruct (is_space c).
    + exists (String c p). simpl. now rewrite <- Hp.
    + now exists "".
Qed.

Lemma lstrip_app_ns (u : string) (c : ascii) :
  is_space c = false -> lstrip (u ++ String c "") <> "".
Proof.
  intro Hc. induction u as [|d u IH]; simpl.
  - rewrite Hc. discriminate.
  - destruct (is_space d); [exact IH | discriminate].
Qed.

Lemma rstrip_starts_ns (t : string) :
  starts_ns t = true -> starts_ns (rstrip t) = true.
Proof.
  destruct t as [|c t']; [reflexivity|].
  intro H. simpl in H. apply negb_true_iff in H.
  unfold rstrip. simpl rev_str.
  pose proof (lstrip_suffix (rev_str t' ++ String c "")) as [p Hp].
  pose proof (lstrip_app_ns (rev_str t') c H) as Hne.
  remember (lstrip (rev_str t' ++ String c "")) as w eqn:Hw.
  clear Hw.
  assert (Ht : String c t' = rev_str w ++ rev_str p).
  { rewrite <- rev_str_app, <- Hp, rev_str_app, rev_str_involutive.
    reflexivity. }
  destruct (rev_str w) as [|d w'] eqn:Hrw.
  - exfalso. apply Hne. rewrite <- (rev_str_involutive w), Hrw. reflexivity.
  - simpl in Ht. injection Ht as -> _. simpl. now rewrite H.
Qed.

Lemma rstrip_idem (s : string) : rstrip (rstrip s) = rstrip s.
Proof.
  unfold rstrip. rewrite rev_str_involutive, lstrip_idem. reflexivity.
Qed.

Lemma strip_idem (s : string) : strip (strip s) = strip s.
Proof.
  unfold strip.
  rewrite (lstrip_id (rstrip (lstrip s)))
    by apply rstrip_starts_ns, lstrip_starts_ns.
  apply rstrip_idem.
Qed.

Lemma pyval_eq_none (x : pyval) : {x = PNone} + {x <> PNone}.
Proof. destruct x; [left; reflexivity | right; discriminate ..]. Qed.

Lemma normalize_empty : normalize (PStr "") = "".
Proof. reflexivity. Qed.

Lemma normalize_not_none (x : pyval) : x <> PNone ->
  normalize x = (let s := strip (py_str x) in
                 if in_strs (lower s) ["nan"; "none"; "null"] then "" else s).
Proof. destruct x; [congruence|reflexivity..]. Qed.

Lemma normalize_idem (x : pyval) : normalize (PStr (normalize x)) = normalize x.
Proof.
  destruct (pyval_eq_none x) as [->|Hx]; [reflexivity|].
  rewrite (normalize_not_none x Hx). cbv zeta.
  destruct (in_strs (lower (strip (py_str x))) _) eqn:E; [reflexivity|].
  rewrite normalize_not_none by discriminate. cbv zeta. simpl py_str.
  rewrite strip_idem, E. reflexivity.
Qed.

Lemma clean_is_normalize (x : pyval) : clean x = normalize x.
Proof.
  destruct x; try reflexivity;
  unfold clean, normalize;
  match goal with |- context [strip ?t] => destruct (strip t) eqn:E end;
  reflexivity.
Qed.

End StringLemmas.

(* ------------------------------------------------------------------ *)
(** ** The locator *)

Lemma scan_col_cons (row : list string) (col : list (list string)) (i last : nat) :
  scan_col (row :: col) i last =
  if nonempty_row row then scan_col col (S i) i else scan_col col (S i) last.
Proof. reflexivity. Qed.

Lemma scan_col_spec (col : list (list string)) : forall i last,
  (scan_col col i last = last
   /\ forall j, j < length col -> nonempty_row (nth j col []) = false)
  \/ (exists j, j < length col /\ scan_col col i last = i + j
      /\ nonempty_row (nth j col []) = true
      /\ forall j', j < j' -> j' < length col -> nonempty_row (nth j' col []) = false).
Proof.
  induction col as [|row col IH]; intros i last.
  - left. split; [reflexivity | simpl; intros; lia].
  - rewrite scan_col_cons. destruct (nonempty_row row) eqn:Hr.
    + right. destruct (IH (S i) i) as [[E Hall] | [j [Hj [E [Hne Hafter]]]]].
      * exists 0. rewrite E. repeat split; [simpl; lia | lia | exact Hr |].
        intros [|j'] H1 H2; [lia|]. simpl in *. apply Hall. lia.
      * exists (S j). rewrite E. repeat split; [simpl; lia | lia | exact Hne |].
        intros [|j'] H1 H2; [lia|]. simpl in *. apply Hafter; lia.
    + destruct (IH (S i) last) as [[E Hall] | [j [Hj [E [Hne Hafter]]]]].
      * left. split; [exact E|]. intros [|j] Hj; [exact Hr|]. simpl in *. apply Hall. lia.
      * right. exists (S j). rewrite E. repeat split; [simpl; lia | lia | exact Hne |].
        intros [|j'] H1 H2; [lia|]. simpl in *. apply Hafter; lia.
Qed.

Lemma scan_col_app (l m : list (list string)) : forall i last,
  scan_col (l ++ m) i last = scan_col m (i + length l) (scan_col l i last).
Proof.
  induction l as [|row l IH]; intros i last.
  - simpl. now rewrite Nat.add_0_r.
  - rewrite <- app_comm_cons, !scan_col_cons.
    replace (i + length (row :: l)) with (S i + length l) by (simpl; lia).
    destruct (nonempty_row row); apply IH.
Qed.

Lemma scan_col_empty_rows (k i last : nat) : scan_col (repeat [] k) i last = last.
Proof.
  revert i. induction k as [|k IH]; intro i; [reflexivity|]. exact (IH (S i)).
Qed.

Lemma drop_empty_rows_split (m : list (list string)) :
  exists k, m = repeat [] k ++ drop_empty_rows m.
Proof.
  induction m as [|r m [k IH]]; [now exists 0|].
  destruct r as [|v r].
  - exists (S k). simpl. now rewrite <- IH.
  - now exists 0.
Qed.

Lemma scan_col_trim_rows (l : list (list string)) (i last : nat) :
  scan_col (trim_rows l) i last = scan_col l i last.
Proof.
  unfold trim_rows.
  destruct (drop_empty_rows_split (rev l)) as [k E].
  assert (El : l = rev (drop_empty_rows (rev l)) ++ repeat [] k).
  { rewrite <- (rev_involutive l) at 1. rewrite E at 1. rewrite rev_app_distr.
    f_equal. apply rev_repeat. }
  rewrite El at 2. rewrite scan_col_app, scan_col_empty_rows. reflexivity.
Qed.

Lemma sheet_get_colA (sh : sheet) :
  sheet_get sh rng_colA =
  trim_rows (map (fun r => trim_cells [cell sh r 0]) (seq 1 (height sh))).
Proof.
  unfold sheet_get, last_row, rng_colA. simpl. rewrite Nat.sub_0_r. reflexivity.
Qed.

Lemma nonempty_row_trim (x : string) : nonempty_row (trim_cells [x]) =
  negb (String.eqb (normalize_s x) "").
Proof. destruct x; reflexivity. Qed.

Lemma locator_rows (sh : sheet) (j : nat) : j < height sh ->
  nonempty_row (nth j (map (fun r => trim_cells [cell sh r 0]) (seq 1 (height sh))) [])
  = col_a_nonempty sh (1 + j).
Proof.
  intro Hj.
  rewrite nth_indep with (d' := (fun r => trim_cells [cell sh r 0]) 0)
    by now rewrite length_map, length_seq.
  rewrite (map_nth (fun r => trim_cells [cell sh r 0]) (seq 1 (height sh)) 0 j).
  rewrite seq_nth by exact Hj.
  apply nonempty_row_trim.
Qed.

(** The value computed by [last_nonempty_row_in_col_a] on a worksheet. *)
Lemma locator_spec (sh : sheet) :
  let L := scan_col (sheet_get sh rng_colA) 1 0 in
  (L = 0 /\ forall r, 1 <= r <= height sh -> col_a_nonempty sh r = false)
  \/ (1 <= L <= height sh /\ col_a_nonempty sh L = true
      /\ forall r, L < r <= height sh -> col_a_nonempty sh r = false).
Proof.
  cbv zeta. rewrite sheet_get_colA, scan_col_trim_rows.
  set (col := map _ (seq 1 (height sh))).
  assert (Hlen : length col = height sh) by (unfold col; now rewrite length_map, length_seq).
  destruct (scan_col_spec col 1 0) as [[E Hall] | [j [Hj [E [Hne Hafter]]]]].
  - left. split; [exact E|]. intros r Hr.
    replace r with (1 + (r - 1)) by lia.
    rewrite <- locator_rows by lia. apply Hall. lia.
  - right. rewrite E. rewrite Hlen in Hj.
    split; [lia|]. split.
    + rewrite <- locator_rows by lia. exact Hne.
    + intros r Hr. replace r with (1 + (r - 1)) by lia.
      rewrite <- locator_rows by lia. apply Hafter; lia.
Qed.

(* ------------------------------------------------------------------ *)
(** ** The extractor *)

Lemma home_not_away (x : pyval) :
  py_eq_str x "home" = true -> py_eq_str x "away" = false.
Proof.
  destruct x as [| | |s]; try discriminate. simpl.
  intro H. apply String.eqb_eq in H. subst. reflexivity.
Qed.

Lemma parse_event_some_iff (ev : event) :
  (exists g, parse_event ev = Some g) <-> extractable ev = true.
Proof.
  unfold parse_event, extractable.
  destruct (competitions ev) as [|comp rest].
  { split; [intros [g H]; discriminate | discriminate]. }
  destruct (truthy (status_completed comp)); cbn [negb andb].
  2:{ split; [intros [g H]; discriminate | discriminate]. }
  destruct (competitors comp) as [|c1 [|c2 [|c3 cs]]]; cbn [length Nat.eqb negb andb].
  1,2,4: split; [intros [g H]; discriminate | discriminate].
  unfold count_side, fold_left, competitor_step. cbn [filter forallb].
  fold (competitor_score c1). fold (competitor_score c2).
  destruct (py_eq_str (homeAway c1) "home") eqn:H1h;
  [rewrite (home_not_away _ H1h) | destruct (py_eq_str (homeAway c1) "away") eqn:H1a];
  (destruct (py_eq_str (homeAway c2) "home") eqn:H2h;
   [rewrite (home_not_away _ H2h) | destruct (py_eq_str (homeAway c2) "away") eqn:H2a]);
  destruct (competitor_score c1), (competitor_score c2); cbn;
  split; try (intros [g H]; discriminate); try discriminate;
  eauto.
Qed.

Lemma parse_completed_games_spec (evs : list event) :
  Forall2 (fun ev g => parse_event ev = Some g)
          (filter extractable evs) (parse_completed_games evs).
Proof.
  induction evs as [|ev evs IH]; simpl; [constructor|].
  destruct (parse_event ev) as [g|] eqn:E.
  - assert (Hx : extractable ev = true) by (apply parse_event_some_iff; eauto).
    rewrite Hx. constructor; assumption.
  - destruct (extractable ev) eqn:Hx; [|exact IH].
    apply parse_event_some_iff in Hx as [g Hg]. congruence.
Qed.

(* ------------------------------------------------------------------ *)
(** ** Site designation *)

Lemma build_row_distinct (g : game) : home_score g <> away_score g ->
  let r := build_row g in
  winner_score r = Z.max (home_score g) (away_score g)
  /\ loser_score r = Z.min (home_score g) (away_score g)
  /\ ((home_score g > away_score g /\ winner_team r = home_team g
       /\ loser_team r = away_team g
       /\ site_designation r = if is_neutral g then "N" else "H")
      \/ (away_score g > home_score g /\ winner_team r = away_team g
          /\ loser_team r = home_team g
          /\ site_designation r = if is_neutral g then "N" else "A"))%Z.
Proof.
  intro Hne. cbv zeta. unfold build_row. cbn [winner_score loser_score winner_team
    loser_team site_designation].
  split; [reflexivity|]. split; [reflexivity|].
  destruct (Z.gtb (home_score g) (away_score g)) eqn:E.
  - left. apply Z.gtb_lt in E. repeat split; lia.
  - right. rewrite Z.gtb_ltb, Z.ltb_ge in E. repeat split; lia.
Qed.

Lemma build_row_tie (g : game) : home_score g = away_score g ->
  let r := build_row g in
  winner_team r = away_team g /\ loser_team r = home_team g
  /\ winner_score r = home_score g /\ loser_score r = home_score g
  /\ site_designation r = if is_neutral g then "N" else "A".
Proof.
  intro Heq. cbv zeta. unfold build_row. cbn [winner_score loser_score winner_team
    loser_team site_designation].
  rewrite Heq, Z.gtb_ltb, Z.ltb_irrefl, Z.max_id, Z.min_id.
  repeat split; reflexivity.
Qed.

(* ------------------------------------------------------------------ *)
(** ** The properties of the specification *)

(** C10: the cell normalizer is idempotent ([clean] of the scraper is the
    same function), so normalizing an already-normalized row, as [row_key]
    does, gives the row back. *)
Theorem normalize_idempotent :
  (forall x, normalize (PStr (normalize x)) = normalize x)
  /\ (forall x, clean x = normalize x /\ clean (PStr (clean x)) = clean x)
  /\ (forall vals, row_key (map normalize_s vals) = map normalize_s vals).
Proof.
  split; [exact normalize_idem|]. split.
  - intro x. rewrite !clean_is_normalize. split; [reflexivity | apply normalize_idem].
  - intro vals. unfold row_key. rewrite map_map. apply map_ext.
    intro v. apply normalize_idem.
Qed.

(** C2: [last_nonempty_row_in_col_a] reads column A once and returns the
    1-based index of the last row whose value normalizes to a non-empty
    string, past any gap, and 0 when there is none; on a column with values
    at rows 1-5 and 9 it returns 9. *)
Theorem last_nonempty_row_in_col_a_spec :
  (forall w, exists L,
     last_nonempty_row_in_col_a w =
       ({| ws := ws w; requests := requests w ++ [GetReq rng_colA]; out := out w |}, Ok L)
     /\ ((L = 0 /\ forall r, 1 <= r <= height (ws w) -> col_a_nonempty (ws w) r = false)
         \/ (1 <= L <= height (ws w) /\ col_a_nonempty (ws w) L = true
             /\ forall r, L < r <= height (ws w) -> col_a_nonempty (ws w) r = false)))
  /\ snd (last_nonempty_row_in_col_a {| ws := gap_sheet; requests := []; out := [] |})
     = Ok 9.
Proof.
  split.
  - intro w. exists (scan_col (sheet_get (ws w) rng_colA) 1 0). split.
    + reflexivity.
    + apply locator_spec.
  - vm_compute. reflexivity.
Qed.

(** C3: an event yields a game exactly when its first competition is marked
    completed, it has two competitors, exactly one flagged home and one
    flagged away, and both scores parse with [int]; the generator yields,
    in order, one game for each such event and nothing for the others. *)
Theorem parse_completed_games_selects :
  (forall ev, (exists g, parse_event ev = Some g) <-> extractable ev = true)
  /\ (forall evs, Forall2 (fun ev g => parse_event ev = Some g)
                          (filter extractable evs) (parse_completed_games evs)).
Proof.
  split; [exact parse_event_some_iff | exact parse_completed_games_spec].
Qed.

(** C4 (as the code has it): when the two scores differ, the winner is the
    competitor with the greater score, the scores are the maximum and the
    minimum, and the site is "N" at a neutral venue, else "H" or "A" by the
    winner's side; on equal scores the row names the away competitor as
    winner, both scores equal, and the site is "N" or "A". The Duke-Army
    scenarios give "H" and "N". *)
Theorem build_rows_winner_site :
  (forall g, home_score g <> away_score g ->
     let r := build_row g in
     winner_score r = Z.max (home_score g) (away_score g)
     /\ loser_score r = Z.min (home_score g) (away_score g)
     /\ ((home_score g > away_score g /\ winner_team r = home_team g
          /\ loser_team r = away_team g
          /\ site_designation r = if is_neutral g then "N" else "H")
         \/ (away_score g > home_score g /\ winner_team r = away_team g
             /\ loser_team r = home_team g
             /\ site_designation r = if is_neutral g then "N" else "A"))%Z)
  /\ (forall g, home_score g = away_score g ->
       let r := build_row g in
       winner_team r = away_team g /\ loser_team r = home_team g
       /\ winner_score r = home_score g /\ loser_score r = home_score g
       /\ site_designation r = if is_neutral g then "N" else "A")
  /\ map row_fields (build_rows (parse_completed_games
                                   [sample_event "Duke" "80" "Army" "60" false]))
     = [("Duke", 80%Z, "Army", 60%Z, "H")]
  /\ map row_fields (build_rows (parse_completed_games
                                   [sample_event "Duke" "80" "Army" "60" true]))
     = [("Duke", 80%Z, "Army", 60%Z, "N")].
Proof.
  split; [exact build_row_distinct|]. split; [exact build_row_tie|].
  split; vm_compute; reflexivity.
Qed.

Lemma build_rows_winner_site_witness :
  (80 <> 60)%Z /\
  winner_team (build_row {| home_team := "Duke"; home_score := 80; away_team := "Army";
                            away_score := 60; is_neutral := false; location := "" |})
  = "Duke".
Proof.
  split; [lia|].
  destruct (proj1 build_rows_winner_site
              {| home_team := "Duke"; home_score := 80; away_team := "Army";
                 away_score := 60; is_neutral := false; location := "" |})
    as [_ [_ [[_ [Hw _]] | [Hlt _]]]]; [simpl; lia | exact Hw | simpl in Hlt; lia].
Defined.

(** C4, as claimed, fails on a tie: a completed 70-70 event is extracted,
    no competitor has the strictly greater score, and the row names the
    away team as winner with site "A". *)
Lemma build_rows_tie_counterexample :
  exists g, parse_completed_games [sample_event "Duke" "70" "Army" "70" false] = [g]
  /\ ~ strict_winner g
  /\ row_fields (build_row g) = ("Army", 70%Z, "Duke", 70%Z, "A").
Proof.
  eexists. split; [vm_compute; reflexivity|]. split.
  - unfold strict_winner. simpl. lia.
  - vm_compute. reflexivity.
Qed.

(* ------------------------------------------------------------------ *)
(** ** The scoreboard fetcher *)

Lemma py_eqb_sym (x y : pyval) : py_eqb x y = py_eqb y x.
Proof.
  destruct x, y; simpl; try reflexivity.
  - destruct b, b0; reflexivity.
  - apply Z.eqb_sym.
  - apply String.eqb_sym.
Qed.

Lemma py_eqb_num (x y : pyval) : py_eqb x y = true <-> py_num x = py_num y.
Proof.
  destruct x as [|a|a|a], y as [|b|b|b]; simpl;
  try (split; [discriminate | intro H; discriminate H]);
  try (split; reflexivity).
  - destruct a, b; simpl; split; congruence.
  - rewrite Z.eqb_eq. destruct a; split; congruence.
  - rewrite Z.eqb_eq. destruct b; split; congruence.
  - rewrite Z.eqb_eq. split; congruence.
  - rewrite String.eqb_eq. split; congruence.
Qed.

Lemma py_eqb_trans (x y z : pyval) :
  py_eqb x y = true -> py_eqb y z = true -> py_eqb x z = true.
Proof. rewrite !py_eqb_num. congruence. Qed.

Lemma py_in_app (x : pyval) (a b : list pyval) :
  py_in x (a ++ b) = py_in x a || py_in x b.
Proof. unfold py_in. apply existsb_app. Qed.

Lemma seen_before_S (page : nat -> list event) (ps j : nat) :
  seen_before page ps (S j) = seen_before page ps j ++ ids_of (page (j * ps)).
Proof.
  unfold seen_before. rewrite seq_S, map_app, concat_app. simpl.
  now rewrite app_nil_r.
Qed.

Lemma ForallOrdPairs_app_one {A} (R : A -> A -> Prop) (l : list A) (x : A) :
  ForallOrdPairs R l -> Forall (fun a => R a x) l -> ForallOrdPairs R (l ++ [x]).
Proof.
  induction 1 as [|a l Ha Hl IH]; intro Hx; simpl.
  - constructor; [constructor | constructor].
  - inversion Hx; subst. constructor.
    + apply Forall_app. split; [exact Ha | constructor; [assumption | constructor]].
    + apply IH. assumption.
Qed.

Lemma distinct_ids_rev (l : list event) : distinct_ids l -> distinct_ids (rev l).
Proof.
  unfold distinct_ids. induction 1 as [|a l Ha Hl IH]; simpl; [constructor|].
  apply ForallOrdPairs_app_one; [exact IH|].
  apply Forall_rev. eapply Forall_impl; [|exact Ha].
  intros e H. simpl in H. now rewrite py_eqb_sym.
Qed.

Lemma py_in_false_forall (x : pyval) (l : list event) :
  py_in x (map ev_id l) = false -> Forall (fun e => py_eqb x (ev_id e) = false) l.
Proof.
  induction l as [|e l IH]; simpl; [constructor|].
  unfold py_in. simpl. intro H. apply orb_false_iff in H as [H1 H2].
  constructor; [exact H1 | apply IH; exact H2].
Qed.

Lemma scan_page_inv (evs : list event) : forall seen all n,
  fetch_inv seen all ->
  let '(seen', all', _) := scan_page evs seen all n in fetch_inv seen' all'.
Proof.
  induction evs as [|e evs IH]; intros seen all n Hinv; simpl; [exact Hinv|].
  destruct (truthy (ev_id e) && negb (py_in (ev_id e) seen)) eqn:E.
  - apply IH. destruct Hinv as [-> [Ht Hd]].
    apply andb_true_iff in E as [E1 E2]. apply negb_true_iff in E2.
    split; [reflexivity|]. split; [constructor; assumption|].
    constructor; [|exact Hd]. now apply py_in_false_forall.
  - apply IH. exact Hinv.
Qed.

Lemma scan_page_seen (evs : list event) : forall seen all n x,
  let '(seen', _, _) := scan_page evs seen all n in
  py_in x seen' = py_in x seen || py_in x (ids_of evs).
Proof.
  induction evs as [|e evs IH]; intros seen all n x; simpl.
  - unfold ids_of. simpl. now rewrite orb_false_r.
  - unfold ids_of. simpl. fold (ids_of evs).
    destruct (truthy (ev_id e)) eqn:Et; simpl.
    + destruct (py_in (ev_id e) seen) eqn:Ein; simpl.
      * specialize (IH seen all n x).
        destruct (scan_page evs seen all n) as [[s' a'] k]. rewrite IH.
        unfold py_in at 3. simpl. fold (py_in x (ids_of evs)).
        destruct (py_eqb x (ev_id e)) eqn:Exe; [|reflexivity].
        assert (Hx : py_in x seen = true).
        { unfold py_in in *. apply existsb_exists in Ein as [y [Hy Hey]].
          apply existsb_exists. exists y. split; [exact Hy|].
          eapply py_eqb_trans; eassumption. }
        rewrite Hx. simpl. now rewrite orb_true_r.
      * specialize (IH (ev_id e :: seen) (e :: all) (S n) x).
        destruct (scan_page evs (ev_id e :: seen) (e :: all) (S n)) as [[s' a'] k].
        rewrite IH. unfold py_in. simpl. fold (py_in x seen).
        fold (py_in x (ids_of evs)).
        destruct (py_eqb x (ev_id e)), (py_in x seen); reflexivity.
    + apply IH.
Qed.

Lemma scan_page_new (evs : list event) : forall seen all n,
  let '(_, _, new) := scan_page evs seen all n in
  n <= new
  /\ (new = n <-> forall e, In e evs -> truthy (ev_id e) = true ->
                            py_in (ev_id e) seen = true).
Proof.
  induction evs as [|e evs IH]; intros seen all n; simpl.
  - split; [lia|]. split; [intros _ e []|reflexivity].
  - destruct (truthy (ev_id e) && negb (py_in (ev_id e) seen)) eqn:E.
    + specialize (IH (ev_id e :: seen) (e :: all) (S n)).
      destruct (scan_page evs (ev_id e :: seen) (e :: all) (S n)) as [[s' a'] k].
      destruct IH as [Hle _]. split; [lia|]. split; [lia|].
      intro H. apply andb_true_iff in E as [E1 E2].
      rewrite (H e (or_introl eq_refl) E1) in E2. discriminate.
    + specialize (IH seen all n).
      destruct (scan_page evs seen all n) as [[s' a'] k].
      destruct IH as [Hle Hiff]. split; [exact Hle|]. rewrite Hiff.
      split.
      * intros H e' [<-|Hin] Ht; [|now apply H].
        rewrite Ht in E. simpl in E. now apply negb_false_iff in E.
      * intros H e' Hin. apply H. now right.
Qed.

Lemma page_stops_ext (s1 s2 : list pyval) (evs : list event) (ps : nat) :
  (forall x, py_in x s1 = py_in x s2) -> page_stops s1 evs ps -> page_stops s2 evs ps.
Proof.
  intros Heq [H|[H|H]]; [left; exact H | right; left | right; right; exact H].
  intros e Hin Ht. rewrite <- Heq. now apply H.
Qed.

Lemma fetch_loop_spec (page : nat -> list event) (ps : nat) (fuel : nat) :
  forall j0 seen all offs res,
  fetch_inv seen all ->
  (forall x, py_in x seen = py_in x (seen_before page ps j0)) ->
  fetch_loop fuel page ps (j0 * ps) seen all = (offs, Some res) ->
  distinct_ids res /\ Forall (fun e => truthy (ev_id e) = true) res
  /\ exists k, offs = map (fun j => j * ps) (seq j0 (S k))
     /\ (forall j, j0 <= j < j0 + k -> ~ page_stops (seen_before page ps j) (page (j * ps)) ps)
     /\ page_stops (seen_before page ps (j0 + k)) (page ((j0 + k) * ps)) ps.
Proof.
  induction fuel as [|fuel IH]; intros j0 seen all offs res Hinv Hseen Hrun;
    [discriminate|].
  simpl in Hrun.
  destruct (page (j0 * ps)) as [|e0 evs0] eqn:Hpage.
  - injection Hrun as <- <-.
    destruct Hinv as [_ [Ht Hd]].
    split; [now apply distinct_ids_rev|]. split; [now apply Forall_rev|].
    exists 0. rewrite Nat.add_0_r. split; [reflexivity|]. split; [intros; lia|].
    left. exact Hpage.
  - pose proof (scan_page_inv (e0 :: evs0) seen all 0 Hinv) as Hinv'.
    pose proof (fun x => scan_page_seen (e0 :: evs0) seen all 0 x) as Hseen'.
    pose proof (scan_page_new (e0 :: evs0) seen all 0) as Hnew.
    destruct (scan_page (e0 :: evs0) seen all 0) as [[seen' all'] new].
    destruct Hnew as [_ Hnew].
    destruct (Nat.eqb new 0 || Nat.ltb (length (e0 :: evs0)) ps) eqn:Hstop.
    + injection Hrun as <- <-.
      destruct Hinv' as [_ [Ht Hd]].
      split; [now apply distinct_ids_rev|]. split; [now apply Forall_rev|].
      exists 0. rewrite Nat.add_0_r. split; [reflexivity|]. split; [intros; lia|].
      rewrite Hpage. apply orb_true_iff in Hstop as [H|H].
      * right. left. apply Nat.eqb_eq in H. pose proof (proj1 Hnew H) as H'.
        intros e Hin Htr. rewrite <- Hseen. now apply H'.
      * right. right. now apply Nat.ltb_lt.
    + destruct (fetch_loop fuel page ps (j0 * ps + ps) seen' all') as [offs' res']
        eqn:Hrec.
      injection Hrun as <- ->.
      replace (j0 * ps + ps) with (S j0 * ps) in Hrec by lia.
      assert (Hseen'' : forall x, py_in x seen' = py_in x (seen_before page ps (S j0))).
      { intro x. rewrite seen_before_S, py_in_app, <- Hseen, Hpage. apply Hseen'. }
      destruct (IH (S j0) seen' all' offs' res Hinv' Hseen'' Hrec)
        as [Hd [Ht [k [Hoffs [Hcont Hlast]]]]].
      split; [exact Hd|]. split; [exact Ht|].
      exists (S k). split; [|split].
      * rewrite Hoffs. reflexivity.
      * intros j Hj. destruct (Nat.eq_dec j j0) as [->|Hne]; [|apply Hcont; lia].
        rewrite Hpage. apply orb_false_iff in Hstop as [H1 H2].
        intros [H|[H|H]]; [discriminate| |].
        -- apply Nat.eqb_neq in H1. apply H1, (proj2 Hnew).
           intros e Hin Htr. rewrite Hseen. now apply H.
        -- apply Nat.ltb_nlt in H2. contradiction.
      * replace (j0 + S k) with (S j0 + k) by lia. exact Hlast.
Qed.

(** C8: within one fetch, the events returned carry truthy, pairwise
    distinct identifiers, and the pages requested are those at offsets
    [0], [page_size], ..., up to and including the first page that is empty,
    brings no identifier not met on an earlier page, or is shorter than the
    page size. *)
Theorem fetch_scoreboard_all_spec :
  forall fuel page page_size offs res,
  fetch_scoreboard_all fuel page page_size = (offs, Some res) ->
  distinct_ids res /\ Forall (fun e => truthy (ev_id e) = true) res
  /\ exists k, offs = map (fun j => j * page_size) (seq 0 (S k))
     /\ (forall j, j < k ->
           ~ page_stops (seen_before page page_size j) (page (j * page_size)) page_size)
     /\ page_stops (seen_before page page_size k) (page (k * page_size)) page_size.
Proof.
  intros fuel page ps offs res Hrun.
  destruct (fetch_loop_spec page ps fuel 0 [] [] offs res) as [Hd [Ht [k [Ho [Hc Hl]]]]].
  - split; [reflexivity|]. split; constructor.
  - intro x. reflexivity.
  - exact Hrun.
  - split; [exact Hd|]. split; [exact Ht|]. exists k. split; [exact Ho|].
    split; [intros j Hj; apply Hc; lia | exact Hl].
Qed.

Lemma fetch_scoreboard_all_spec_witness :
  fetch_scoreboard_all 10 sample_page 2
    = ([0; 2; 4], Some [ev_with_id "1"; ev_with_id "2"; ev_with_id "3"; ev_with_id "4"])
  /\ distinct_ids [ev_with_id "1"; ev_with_id "2"; ev_with_id "3"; ev_with_id "4"].
Proof.
  split; [vm_compute; reflexivity|].
  exact (proj1 (fetch_scoreboard_all_spec 10 sample_page 2 [0; 2; 4]
                  [ev_with_id "1"; ev_with_id "2"; ev_with_id "3"; ev_with_id "4"]
                  ltac:(vm_compute; reflexivity))).
Defined.

(* ------------------------------------------------------------------ *)
(** ** Runs of the append script *)

Lemma mapM_print (ls : list line) : forall w,
  mapM_ print ls w = ({| ws := ws w; requests := requests w; out := out w ++ ls |}, Ok tt).
Proof.
  induction ls as [|l ls IH]; intro w; simpl.
  - destruct w; simpl. now rewrite app_nil_r.
  - unfold bind. simpl. rewrite IH. simpl. now rewrite <- app_assoc.
Qed.

Lemma build_existing_keys_run (L K : nat) (w : world) :
  build_existing_keys L K w =
  if Nat.ltb 0 L && Nat.ltb 0 K then
    ({| ws := ws w; requests := requests w ++ [GetReq (rng_AF (lb_start L K) L)];
        out := out w |},
     Ok (map (fun r => row_key (pad6 r)) (sheet_get (ws w) (rng_AF (lb_start L K) L))))
  else (w, Ok []).
Proof. unfold build_existing_keys. destruct (Nat.ltb 0 L && Nat.ltb 0 K); reflexivity. Qed.

Section AppendRun.
Variables (sh : sheet) (env : option string) (title tab : string)
          (df : dataframe) (K : Z).
Hypothesis Henv : env <> None.
Hypothesis Hnonempty : df_empty df = false.
Hypothesis Hcols : filter (fun c => negb (in_strs c (columns df))) CSV_COLS = [].

Let rows := map (fun r => map (df_at (columns df) r) CSV_COLS) (data df).
Let L := scan_col (sheet_get sh rng_colA) 1 0.
Let Kn := Z.to_nat (Z.max 0 K).
Let lb := Nat.ltb 0 L && Nat.ltb 0 Kn.
Let keys := if lb then map (fun r => row_key (pad6 r)) (sheet_get sh (rng_AF (lb_start L Kn) L))
            else [].
Let reqs0 := [GetReq rng_colA] ++ (if lb then [GetReq (rng_AF (lb_start L Kn) L)] else []).
Let csv_rows := fst (prepare_rows keys rows).
Let dupes := snd (prepare_rows keys rows).
Let R := rng_AF (L + 1) (L + 1 + length csv_rows - 1).

Lemma append_main_ok : exists lines,
  run_append sh env title tab (Some df) K =
    (match csv_rows with
     | [] => {| ws := sh; requests := reqs0; out := lines |}
     | _ => {| ws := sheet_update sh R csv_rows;
               requests := reqs0 ++ [UpdateReq R csv_rows; GetReq R]; out := lines |}
     end, Ok tt)
  /\ (csv_rows <> [] ->
      In (Text (OKM ++ " CSV rows: " ++ nat_str (length (data df))
                ++ " | duplicates skipped: " ++ nat_str dupes
                ++ " | new rows written: " ++ nat_str (length csv_rows))) lines
      /\ In (Text (OKM ++ " Rows read back from sheet: "
                   ++ nat_str (length (sheet_get (sheet_update sh R csv_rows) R)))) lines).
Proof.
  unfold run_append, append_main. rewrite Hnonempty, Hcols.
  destruct env as [s|]; [|contradiction].
  fold rows. unfold bind at 1. cbn [get_client ret].
  unfold bind at 1. cbn [last_nonempty_row_in_col_a bind ws_get ret ws requests out].
  fold L. fold Kn.
  unfold bind at 1. rewrite build_existing_keys_run. fold lb.
  unfold R, csv_rows, dupes, keys, reqs0.
  destruct lb; cbn [ws requests out app];
  (match goal with |- context [prepare_rows ?k rows] =>
     destruct (prepare_rows k rows) as [cr d] end); cbn [fst snd];
  (destruct cr as [|r0 cr'];
   [rewrite mapM_print; eexists; split; [reflexivity | intro H; contradiction] |]);
  unfold bind at 1; cbn [ws_update ws requests out];
  unfold bind at 1; cbn [ws_get ws requests out];
  rewrite mapM_print; cbn [ws requests out];
  (eexists; split; [reflexivity | intros _; split; simpl; auto 10]).
Qed.

End AppendRun.

(* ------------------------------------------------------------------ *)
(** ** The dedupe filter *)

Lemma prepare_loop_spec (keys : list (list string)) (rows : list (list string)) :
  forall acc d,
  prepare_loop keys rows acc d =
  (rev acc ++ filter (fun v => negb (key_in (row_key v) keys)) (map (map normalize_s) rows),
   d + length (filter (fun v => key_in (row_key v) keys) (map (map normalize_s) rows))).
Proof.
  induction rows as [|r rows IH]; intros acc d; simpl.
  - now rewrite app_nil_r, Nat.add_0_r.
  - destruct (key_in (row_key (map normalize_s r)) keys); simpl; rewrite IH.
    + f_equal. simpl. lia.
    + simpl. now rewrite <- app_assoc.
Qed.

Lemma prepare_rows_spec (keys rows : list (list string)) :
  prepare_rows keys rows =
  (filter (fun v => negb (key_in (row_key v) keys)) (map (map normalize_s) rows),
   length (filter (fun v => key_in (row_key v) keys) (map (map normalize_s) rows))).
Proof. unfold prepare_rows. now rewrite prepare_loop_spec. Qed.

Lemma sheet_update_frame (sh : sheet) (rg : range) (vals : list (list string)) (r c : nat) :
  cell (sheet_update sh rg vals) r c <> cell sh r c -> in_range rg r c = true.
Proof.
  simpl. destruct (in_range rg r c); [reflexivity|]. intro H. now contradiction H.
Qed.

(** C1: with [L > 0] and [K > 0] the existing keys are the fingerprints of
    the rows read from the window [max(1, L-K+1)..L] (columns A-F), and with
    [L = 0] or [K = 0] nothing is read and the set is empty; an incoming row
    is dropped, and counted, exactly when its normalized fingerprint is in
    that set, which the incoming rows never extend: two incoming copies of a
    fingerprint of the window are both dropped, two copies of a fingerprint
    absent from it are both kept. *)
Theorem dedupe_filter_spec :
  (forall w L K, 0 < L -> 0 < K ->
     build_existing_keys L K w =
       ({| ws := ws w; requests := requests w ++ [GetReq (rng_AF (Nat.max 1 (L - K + 1)) L)];
           out := out w |},
        Ok (map (fun r => row_key (pad6 r))
                (sheet_get (ws w) (rng_AF (Nat.max 1 (L - K + 1)) L)))))
  /\ (forall w L K, L = 0 \/ K = 0 -> build_existing_keys L K w = (w, Ok []))
  /\ (forall keys rows,
       prepare_rows keys rows =
       (filter (fun v => negb (key_in (row_key v) keys)) (map (map normalize_s) rows),
        length (filter (fun v => key_in (row_key v) keys) (map (map normalize_s) rows))))
  /\ (forall rows, prepare_rows [] rows = (map (map normalize_s) rows, 0))
  /\ (forall keys v rows, key_in (row_key (map normalize_s v)) keys = true ->
       prepare_rows keys (v :: v :: rows)
       = (fst (prepare_rows keys rows), 2 + snd (prepare_rows keys rows)))
  /\ (forall keys v rows, key_in (row_key (map normalize_s v)) keys = false ->
       prepare_rows keys (v :: v :: rows)
       = (map normalize_s v :: map normalize_s v :: fst (prepare_rows keys rows),
          snd (prepare_rows keys rows))).
Proof.
  split; [|split; [|split; [|split; [|split]]]].
  - intros w L K HL HK. rewrite build_existing_keys_run.
    apply Nat.ltb_lt in HL, HK. rewrite HL, HK. reflexivity.
  - intros w L K [->| ->]; rewrite build_existing_keys_run;
      [reflexivity | now rewrite andb_false_r].
  - exact prepare_rows_spec.
  - intro rows. rewrite prepare_rows_spec. unfold key_in. simpl.
    f_equal; induction (map (map normalize_s) rows); simpl; congruence.
  - intros keys v rows H. rewrite !prepare_rows_spec. simpl. rewrite H. reflexivity.
  - intros keys v rows H. rewrite !prepare_rows_spec. simpl. rewrite H. reflexivity.
Qed.

Lemma dedupe_filter_spec_witness :
  0 < 9 /\ 0 < 3
  /\ requests (fst (build_existing_keys 9 3 {| ws := gap_sheet; requests := []; out := [] |}))
     = [GetReq (rng_AF 7 9)].
Proof.
  split; [lia|]. split; [lia|].
  rewrite (proj1 dedupe_filter_spec {| ws := gap_sheet; requests := []; out := [] |} 9 3
             ltac:(lia) ltac:(lia)).
  reflexivity.
Defined.

(** C5 (as the code has it): a CSV that parses to an empty table (a header
    and no data row) makes the script print "CSV is empty. Nothing to
    write." and return normally, exit status 0, without a request to the
    spreadsheet; a file with no content at all makes [pd.read_csv] raise, and
    the process exits with status 1. *)
Theorem append_empty_csv :
  (forall sh env title tab df K, df_empty df = true ->
     run_append sh env title tab (Some df) K
     = ({| ws := sh; requests := []; out := [Text "CSV is empty. Nothing to write."] |}, Ok tt)
     /\ exit_status (snd (run_append sh env title tab (Some df) K)) = 0)
  /\ (forall sh env title tab K,
       run_append sh env title tab None K
       = ({| ws := sh; requests := []; out := [] |}, Err EmptyDataError)
       /\ exit_status (snd (run_append sh env title tab None K)) = 1).
Proof.
  split.
  - intros sh env title tab df K H. unfold run_append, append_main. rewrite H.
    split; reflexivity.
  - intros. split; reflexivity.
Qed.

Lemma append_empty_csv_witness :
  df_empty header_only = true
  /\ exit_status (snd (run_append gap_sheet (Some "{}") "Bracket" "Games" (Some header_only) 300%Z)) = 0.
Proof.
  split; [reflexivity|].
  exact (proj2 (proj1 append_empty_csv gap_sheet (Some "{}") "Bracket" "Games" header_only 300%Z
                  eq_refl)).
Defined.

(** C5, as claimed, fails: on a CSV with a header and no data row the
    process ends with exit status 0. *)
Lemma append_empty_csv_counterexample :
  exit_status (snd (run_append gap_sheet (Some "{}") "Bracket" "Games" (Some header_only) 300%Z))
  = 0.
Proof. vm_compute. reflexivity. Qed.

(** C7: once the checks pass, let [rows] be the batch the dedupe keeps (the
    normalized six-column CSV rows whose fingerprint is not in the lookback
    window), [N] its length and [S = L + 1]. When [rows] is non-empty, the
    script sends exactly one update, of [rows] in order to [A S : F (S + N - 1)],
    then one read of the same range, and no other update; it prints [N] and
    the number of rows read back, and returns normally whatever that
    number is. *)
Theorem append_write_verify :
  forall sh env title tab df K,
  env <> None -> df_empty df = false ->
  filter (fun c => negb (in_strs c (columns df))) CSV_COLS = [] ->
  let L := scan_col (sheet_get sh rng_colA) 1 0 in
  let Kn := Z.to_nat (Z.max 0 K) in
  let keys := if Nat.ltb 0 L && Nat.ltb 0 Kn
              then map (fun r => row_key (pad6 r)) (sheet_get sh (rng_AF (lb_start L Kn) L))
              else [] in
  let rows := fst (prepare_rows keys (map (fun r => map (df_at (columns df) r) CSV_COLS)
                                          (data df))) in
  let S := L + 1 in
  let R := rng_AF S (S + length rows - 1) in
  rows <> [] ->
  Forall (fun v => length v = 6) rows
  /\ r_lo R = S /\ r_hi R = Some (S + length rows - 1) /\ c_lo R = 0 /\ c_hi R = 5
  /\ exists pre lines,
     run_append sh env title tab (Some df) K
       = ({| ws := sheet_update sh R rows;
             requests := pre ++ [UpdateReq R rows; GetReq R]; out := lines |}, Ok tt)
     /\ (forall rg vals, ~ In (UpdateReq rg vals) pre)
     /\ (exists dupes, In (Text (OKM ++ " CSV rows: " ++ nat_str (length (data df))
                                 ++ " | duplicates skipped: " ++ nat_str dupes
                                 ++ " | new rows written: " ++ nat_str (length rows)))
                          lines)
     /\ In (Text (OKM ++ " Rows read back from sheet: "
                  ++ nat_str (length (sheet_get (sheet_update sh R rows) R)))) lines.
Proof.
  intros sh env title tab df K Henv Hne Hcols L Kn keys rows S R Hrows.
  destruct (append_main_ok sh env title tab df K Henv Hne Hcols) as [lines [Hrun Hlines]].
  assert (Hw : Forall (fun v => length v = 6) rows).
  { unfold rows. rewrite prepare_rows_spec. cbn [fst].
    apply Forall_forall. intros v Hv. apply filter_In in Hv as [Hv _].
    apply in_map_iff in Hv as [x [<- Hx]]. apply in_map_iff in Hx as [r [<- _]].
    now rewrite !length_map. }
  split; [exact Hw|]. split; [reflexivity|]. split; [reflexivity|].
  split; [reflexivity|]. split; [reflexivity|].
  fold L Kn keys rows in Hrun, Hlines. fold S R in Hrun, Hlines.
  set (pre := [GetReq rng_colA] ++ _) in Hrun.
  exists pre, lines.
  destruct rows as [|r0 rs] eqn:Er; [contradiction|].
  split; [exact Hrun|]. split.
  - intros rg vals. unfold pre. destruct (_ && _); simpl; intuition discriminate.
  - destruct (Hlines ltac:(discriminate)) as [H1 H2].
    split; [eexists; exact H1 | exact H2].
Qed.

Lemma append_write_verify_witness :
  In (UpdateReq (rng_AF 10 11) [["11-03-2025"; "Duke"; "80"; "Army"; "60"; "H"];
                                [""; ""; ""; ""; ""; ""]])
     (requests (fst (run_append gap_sheet (Some "{}") "Bracket" "Games" (Some nan_row_csv) 1%Z)))
  /\ In (Text (OKM ++ " Rows read back from sheet: " ++ nat_str 1))
        (out (fst (run_append gap_sheet (Some "{}") "Bracket" "Games" (Some nan_row_csv) 1%Z))).
Proof.
  destruct (append_write_verify gap_sheet (Some "{}") "Bracket" "Games" nan_row_csv 1%Z
              ltac:(discriminate) eq_refl eq_refl ltac:(vm_compute; discriminate))
    as [_ [_ [_ [_ [_ [pre [lines [Hrun [_ [_ Hrb]]]]]]]]]].
  rewrite Hrun. cbn [fst requests out]. split.
  - apply in_or_app. right. left. vm_compute. reflexivity.
  - vm_compute in Hrb. vm_compute. exact Hrb.
Defined.

(** C9: the append changes no cell outside the range it writes: a cell that
    differs afterwards lies in columns A-F of a row [r] with
    [L + 1 <= r <= L + N], where [L] is the locator's result and [N] the
    number of rows of the update sent; rows up to [L] and below the end row
    are unchanged. *)
Theorem append_frame :
  forall sh env title tab csv K,
  let L := scan_col (sheet_get sh rng_colA) 1 0 in
  let w' := fst (run_append sh env title tab csv K) in
  forall r c, cell (ws w') r c <> cell sh r c ->
  exists rows, In (UpdateReq (rng_AF (L + 1) (L + 1 + length rows - 1)) rows) (requests w')
    /\ L + 1 <= r <= L + length rows /\ c <= 5.
Proof.
  intros sh env title tab csv K L w' r c Hch. subst w'.
  destruct csv as [df|]; [|contradiction].
  destruct (df_empty df) eqn:Hne.
  { unfold run_append, append_main in Hch. rewrite Hne in Hch. contradiction. }
  destruct (filter (fun c => negb (in_strs c (columns df))) CSV_COLS) as [|m ms] eqn:Hcols.
  2:{ unfold run_append, append_main in Hch. rewrite Hne, Hcols in Hch. contradiction. }
  destruct env as [s|].
  2:{ unfold run_append, append_main in Hch. rewrite Hne, Hcols in Hch. contradiction. }
  destruct (append_main_ok sh (Some s) title tab df K ltac:(discriminate) Hne Hcols)
    as [lines [Hrun _]].
  rewrite Hrun in Hch |- *. cbn [fst] in *.
  match type of Hch with
  | context [length (fst (prepare_rows ?k ?rs))] =>
      destruct (fst (prepare_rows k rs)) as [|r0 cr'] eqn:Ecr
  end.
  - contradiction.
  - unfold L in *. exists (r0 :: cr'). split.
    + cbn [requests]. apply in_or_app. right. left. reflexivity.
    + apply sheet_update_frame in Hch. unfold in_range, rng_AF in Hch. cbn [r_lo r_hi c_lo c_hi] in Hch.
      repeat rewrite andb_true_iff in Hch. rewrite !Nat.leb_le in Hch.
      cbn [length] in *. lia.
Qed.

(* ------------------------------------------------------------------ *)
(** ** The full refresh *)

Lemma nth_error_repeat_eq {A} (x y : A) (n i : nat) :
  nth_error (repeat x n) i = Some y -> y = x.
Proof. intro H. apply nth_error_In, repeat_spec in H. exact H. Qed.

Lemma sheet_update_blank (sh : sheet) (rg : range) (k n : nat) :
  (forall r c, in_range rg r c = true -> cell sh r c = "") ->
  forall r c, cell (sheet_update sh rg (repeat (repeat "" k) n)) r c = cell sh r c.
Proof.
  intros Hblank r c. simpl.
  destruct (in_range rg r c) eqn:Hin; [|reflexivity].
  destruct (nth_error (repeat (repeat "" k) n) (r - r_lo rg)) as [rw|] eqn:E1; [|reflexivity].
  apply nth_error_repeat_eq in E1. subst rw.
  destruct (nth_error (repeat "" k) (c - c_lo rg)) as [v|] eqn:E2; [|reflexivity].
  apply nth_error_repeat_eq in E2. subst v. symmetry. now apply Hblank.
Qed.

Lemma refresh_cells (sh : sheet) (df : dataframe) :
  columns df <> [] ->
  Forall (fun r => length r = length (columns df)) (data df) ->
  let n := length (data df) in
  let m := length (columns df) in
  forall r c,
  cell (sheet_update (sheet_clear sh)
          {| c_lo := 0; r_lo := 1; c_hi := m - 1; r_hi := Some (n + 1) |}
          (columns df :: map (map normalize_s) (data df))) r c
  = refreshed_cell df r c.
Proof.
  intros Hcols Hlen n m r c. unfold refreshed_cell. fold m. fold n.
  assert (Hm : 1 <= m) by (unfold m; destruct (columns df); [contradiction | simpl; lia]).
  cbn [cell sheet_update sheet_clear]. unfold in_range. cbn [r_lo r_hi c_lo c_hi].
  destruct (Nat.eqb r 1) eqn:Hr1.
  - apply Nat.eqb_eq in Hr1. subst r.
    destruct (Nat.ltb c m) eqn:Hc.
    + apply Nat.ltb_lt in Hc.
      replace (Nat.leb 1 1 && Nat.leb 1 (n + 1) && Nat.leb 0 c && Nat.leb c (m - 1)) with true
        by (symmetry; repeat rewrite andb_true_iff; rewrite !Nat.leb_le; lia).
      rewrite Nat.sub_diag, Nat.sub_0_r. cbn [nth_error andb].
      rewrite (nth_error_nth' (columns df) "") by exact Hc. reflexivity.
    + apply Nat.ltb_ge in Hc.
      replace (Nat.leb 1 1 && Nat.leb 1 (n + 1) && Nat.leb 0 c && Nat.leb c (m - 1)) with false
        by (symmetry; rewrite (proj2 (Nat.leb_gt c (m - 1))) by lia;
            now rewrite andb_false_r).
      rewrite !andb_false_r. reflexivity.
  - destruct (Nat.leb 2 r && Nat.leb r (n + 1) && Nat.ltb c m) eqn:Hmid.
    + repeat rewrite andb_true_iff in Hmid. rewrite !Nat.leb_le, Nat.ltb_lt in Hmid.
      replace (Nat.leb 1 r && Nat.leb r (n + 1) && Nat.leb 0 c && Nat.leb c (m - 1)) with true
        by (symmetry; repeat rewrite andb_true_iff; rewrite !Nat.leb_le; lia).
      replace (r - 1) with (S (r - 2)) by lia. cbn [nth_error]. rewrite Nat.sub_0_r.
      assert (Hi : r - 2 < n) by lia.
      rewrite nth_error_map, (nth_error_nth' (data df) []) by exact Hi. cbn [option_map].
      assert (Hrow : length (nth (r - 2) (data df) []) = m).
      { rewrite Forall_forall in Hlen. apply Hlen. apply nth_In. exact Hi. }
      rewrite nth_error_map, (nth_error_nth' _ "") by lia. reflexivity.
    + destruct (Nat.leb 1 r && Nat.leb r (n + 1) && Nat.leb 0 c && Nat.leb c (m - 1)) eqn:Hin;
        [|reflexivity].
      exfalso. apply Nat.eqb_neq in Hr1.
      repeat rewrite andb_true_iff in Hin. rewrite !Nat.leb_le in Hin.
      repeat rewrite andb_false_iff in Hmid. rewrite !Nat.leb_gt, Nat.ltb_ge in Hmid.
      lia.
Qed.

Lemma refreshed_cell_below (df : dataframe) (r c : nat) :
  length (data df) + 2 <= r -> refreshed_cell df r c = "".
Proof.
  intro Hr. unfold refreshed_cell.
  rewrite (proj2 (Nat.eqb_neq r 1)) by lia.
  rewrite (proj2 (Nat.leb_gt r (length (data df) + 1))) by lia.
  rewrite andb_false_r. reflexivity.
Qed.

(** C6 (amended). With the credentials present, a header row and data rows
    of the header's width, the run ends normally; it sends the clear, the
    write of the header and the normalized rows to rows [1..n+1], and, when
    [clear_below > 0], a blank write to rows [n+2..n+1+clear_below]. The tab
    then holds the header on row 1, the normalized data on rows [2..n+1] and
    nothing anywhere else. *)
Theorem overwrite_refresh (sh : sheet) (e tab : string) (df : dataframe) (cb : Z) :
  columns df <> [] ->
  Forall (fun r => length r = length (columns df)) (data df) ->
  let n := length (data df) in
  let m := length (columns df) in
  let w' := fst (run_overwrite sh (Some e) tab (Some df) cb) in
  snd (run_overwrite sh (Some e) tab (Some df) cb) = Ok tt /\
  requests w' =
    [ClearReq;
     UpdateReq {| c_lo := 0; r_lo := 1; c_hi := m - 1; r_hi := Some (n + 1) |}
               (columns df :: map (map normalize_s) (data df))]
    ++ (if Z.ltb 0 cb
        then [UpdateReq {| c_lo := 0; r_lo := n + 2; c_hi := m - 1;
                           r_hi := Some (n + 1 + Z.to_nat cb) |}
                        (repeat (repeat "" m) (Z.to_nat cb))]
        else []) /\
  (forall r c, cell (ws w') r c = refreshed_cell df r c).
Proof.
  intros Hcols Hlen n m w'. unfold w'.
  unfold run_overwrite, overwrite_main, get_client, bind, ret, ws_clear, ws_update, print.
  cbn [fst snd ws requests out length].
  rewrite length_map. fold n. fold m.
  replace (S n) with (n + 1) by lia. replace (n + 1 + 1) with (n + 2) by lia.
  destruct (Z.ltb 0 cb) eqn:Hcb; cbn [fst snd ws requests out app].
  - split; [reflexivity | split; [reflexivity |]].
    intros r c. cbn [cell]. unfold n, m in *.
    rewrite sheet_update_blank.
    + apply refresh_cells; assumption.
    + intros r' c' Hin. rewrite refresh_cells by assumption.
      apply refreshed_cell_below.
      unfold in_range in Hin. cbn [r_lo r_hi c_lo c_hi] in Hin.
      repeat rewrite andb_true_iff in Hin. rewrite !Nat.leb_le in Hin. lia.
  - split; [reflexivity | split; [reflexivity |]].
    intros r c. unfold n, m in *. apply refresh_cells; assumption.
Qed.

(** Witness of C6: the refresh of the 700-row tab with the 500-row CSV and
    [clear_below = 500]. *)
Lemma overwrite_refresh_witness :
  let w' := fst (run_overwrite prev700 (Some "{}") "Games" (Some csv500) 500%Z) in
  cell (ws w') 1 0 = "date" /\ cell (ws w') 501 0 = "11-03-2025" /\
  cell (ws w') 502 0 = "" /\ cell (ws w') 700 5 = "".
Proof.
  intro w'.
  assert (Hf : Forall (fun r => length r = length (columns csv500)) (data csv500)).
  { apply Forall_forall. intros x Hx. apply repeat_spec in Hx. subst x. reflexivity. }
  destruct (overwrite_refresh prev700 "{}" "Games" csv500 500%Z ltac:(discriminate) Hf)
    as [_ [_ Hc]].
  unfold w'. rewrite !Hc. vm_compute. repeat split.
Defined.

(** C6 (counterexample). Refreshing the tab that held 700 rows with the
    500-row CSV and [clear_below = 500]: row 1 holds the header, so the
    data fills rows 2-501 and row 501 is not blanked; the blank write covers
    rows 502-1001. *)
Lemma overwrite_row501_counterexample :
  let w' := fst (run_overwrite prev700 (Some "{}") "Games" (Some csv500) 500%Z) in
  cell (ws w') 501 0 = "11-03-2025" /\
  In (UpdateReq {| c_lo := 0; r_lo := 502; c_hi := 5; r_hi := Some 1001 |}
                (repeat (repeat "" 6) 500)) (requests w').
Proof.
  split.
  - vm_compute. reflexivity.
  - unfold run_overwrite, overwrite_main, get_client, bind, ret, ws_clear, ws_update, print.
    cbn [fst requests]. simpl. right. right. left. reflexivity.
Qed.

(** Witness of C9: on [gap_sheet] ([L = 9]) the append of [nan_row_csv]
    changes row 10, which lies in the block written from row [L + 1]. *)
Lemma append_frame_witness :
  let w' := fst (run_append gap_sheet (Some "{}") "Bracket" "Games" (Some nan_row_csv) 1%Z) in
  cell (ws w') 10 0 <> cell gap_sheet 10 0 /\
  exists rows, In (UpdateReq (rng_AF 10 (10 + length rows - 1)) rows) (requests w')
    /\ 10 <= 10 <= 9 + length rows /\ 0 <= 5.
Proof.
  intro w'.
  assert (H : cell (ws w') 10 0 <> cell gap_sheet 10 0) by (unfold w'; vm_compute; discriminate).
  split; [exact H |].
  exact (append_frame gap_sheet (Some "{}") "Bracket" "Games" (Some nan_row_csv) 1%Z 10 0 H).
Defined.

(* ------------------------------------------------------------------ *)
(** ** Column labels *)

Lemma col_letter_loop_0 (n : nat) (s : string) : col_letter_loop 0 n s = s.
Proof. reflexivity. Qed.

Lemma col_letter_loop_S (f n : nat) (s : string) :
  col_letter_loop (S f) n s =
  if Nat.eqb n 0 then s
  else col_letter_loop f ((n - 1) / 26) (String (ascii_of_nat (65 + (n - 1) mod 26)) s).
Proof. reflexivity. Qed.

Lemma col_letter_loop_app (f : nat) : forall n s,
  col_letter_loop f n s = (col_letter_loop f n "" ++ s)%string.
Proof.
  induction f as [|f IH]; intros n s; [reflexivity|].
  rewrite !col_letter_loop_S. destruct (Nat.eqb n 0); [reflexivity|].
  rewrite (IH _ (String _ s)), (IH _ (String _ "")).
  rewrite str_app_assoc. reflexivity.
Qed.

Lemma col_number_acc_app (a b : string) : forall acc,
  col_number_acc (a ++ b) acc = col_number_acc b (col_number_acc a acc).
Proof. induction a as [|ch a IH]; intro acc; simpl; auto. Qed.

Lemma all_upper_app (a b : string) : all_upper (a ++ b) = all_upper a && all_upper b.
Proof. induction a as [|ch a IH]; simpl; [reflexivity|]. rewrite IH. now rewrite !andb_assoc. Qed.

Lemma col_letter_loop_number (f : nat) : forall n, n <= f ->
  col_number (col_letter_loop f n "") = n /\ all_upper (col_letter_loop f n "") = true.
Proof.
  induction f as [|f IH]; intros n Hn.
  - replace n with 0 by lia. split; reflexivity.
  - rewrite col_letter_loop_S. destruct (Nat.eqb n 0) eqn:E.
    + apply Nat.eqb_eq in E. subst n. split; reflexivity.
    + apply Nat.eqb_neq in E.
      pose proof (Nat.div_mod (n - 1) 26 ltac:(lia)) as Hdm.
      pose proof (Nat.mod_upper_bound (n - 1) 26 ltac:(lia)) as Hr.
      set (q := (n - 1) / 26) in *. set (r := (n - 1) mod 26) in *.
      assert (Hq : q <= f) by lia.
      destruct (IH q Hq) as [H1 H2].
      rewrite col_letter_loop_app. unfold col_number in *.
      rewrite col_number_acc_app, all_upper_app, H1, H2.
      cbn [col_number_acc all_upper].
      rewrite nat_ascii_embedding by lia.
      split; [lia|].
      repeat (apply andb_true_intro; split); try reflexivity; apply Nat.leb_le; lia.
Qed.

(** ** The errors of the sheet scripts *)

Lemma str_app_eq_empty (a b : string) : (a ++ b)%string = "" -> a = "".
Proof. destruct a; simpl; [reflexivity | discriminate]. Qed.

Lemma clean_clean (x : pyval) : clean (PStr (clean x)) = clean x.
Proof. rewrite !clean_is_normalize. apply normalize_idem. Qed.

Lemma fold_competitor_names (cs : list competitor) : forall r,
  names_clean r -> names_clean (fold_left competitor_step cs r).
Proof.
  induction cs as [|c cs IH]; intros r Hr; simpl; [exact Hr|].
  apply IH. unfold competitor_step.
  destruct (py_eq_str (homeAway c) "home"); [|destruct (py_eq_str (homeAway c) "away")].
  - destruct Hr as [_ Ha]. split; [simpl; intros t [= <-]; apply clean_clean | exact Ha].
  - destruct Hr as [Hh _]. split; [exact Hh | simpl; intros t [= <-]; apply clean_clean].
  - exact Hr.
Qed.

Lemma parse_event_names (ev : event) (g : game) : parse_event ev = Some g ->
  clean (PStr (home_team g)) = home_team g /\ clean (PStr (away_team g)) = away_team g.
Proof.
  unfold parse_event. destruct (competitions ev) as [|comp _]; [discriminate|].
  destruct (negb (truthy (status_completed comp))); [discriminate|].
  destruct (negb (Nat.eqb (List.length (competitors comp)) 2)); [discriminate|].
  match goal with |- context [fold_left competitor_step ?cs ?r0] =>
    pose proof (fold_competitor_names cs r0) as Hf;
    destruct (fold_left competitor_step cs r0) as [nt lc ht hs at_ as_] end.
  destruct Hf as [Hh Ha]; [split; simpl; discriminate|].
  simpl in Hh, Ha.
  destruct ht as [ht|], at_ as [at_|], hs as [[h|]|], as_ as [[a|]|]; try discriminate.
  intros [= <-]. simpl. split; [apply Hh | apply Ha]; reflexivity.
Qed.

Lemma in_parse_completed_games (evs : list event) (g : game) :
  In g (parse_completed_games evs) -> exists ev, In ev evs /\ parse_event ev = Some g.
Proof.
  induction evs as [|ev evs IH]; simpl; [intros []|].
  destruct (parse_event ev) as [g'|] eqn:E.
  - intros [<- | H]; [exists ev; auto|].
    destruct (IH H) as [ev' [Hin Hp]]. exists ev'; auto.
  - intro H. destruct (IH H) as [ev' [Hin Hp]]. exists ev'; auto.
Qed.

Lemma append_missing_run (sh : sheet) (env : option string) (title tab : string)
    (df : dataframe) (K : Z) :
  df_empty df = false -> missing_cols df <> [] ->
  run_append sh env title tab (Some df) K
  = ({| ws := sh; requests := []; out := [] |},
     Err (MissingColumns (missing_cols df) (columns df))).
Proof.
  intros He Hm. unfold run_append, append_main. rewrite He. unfold missing_cols in *.
  destruct (filter _ CSV_COLS); [contradiction | reflexivity].
Qed.

Lemma in_strs_In (c : string) (l : list string) : in_strs c l = true <-> In c l.
Proof.
  unfold in_strs. rewrite existsb_exists. split.
  - intros [x [Hx Hcx]]. apply String.eqb_eq in Hcx. now subst x.
  - intro H. exists c. split; [exact H | apply String.eqb_refl].
Qed.

(** A non-empty CSV that lacks a required column stops the append script
    before the credentials are read and before the sheet is contacted: the
    run raises the error naming the required columns absent from the CSV
    (in the order of [CSV_COLS]) and the columns found, whatever the
    environment; it sends no request and prints nothing. *)
Theorem append_missing_columns_untouched (sh : sheet) (env : option string)
    (title tab : string) (df : dataframe) (K : Z) :
  df_empty df = false -> missing_cols df <> [] ->
  run_append sh env title tab (Some df) K
  = ({| ws := sh; requests := []; out := [] |},
     Err (MissingColumns (missing_cols df) (columns df)))
  /\ (forall c, In c (missing_cols df) <-> In c CSV_COLS /\ ~ In c (columns df)).
Proof.
  intros He Hm. split; [exact (append_missing_run sh env title tab df K He Hm)|].
  intro c. unfold missing_cols. rewrite filter_In, negb_true_iff.
  split; intros [H1 H2]; split; try exact H1.
  - intro H. apply in_strs_In in H. congruence.
  - destruct (in_strs c (columns df)) eqn:E; [|reflexivity].
    apply in_strs_In in E. contradiction.
Qed.

Lemma append_missing_columns_untouched_witness :
  run_append gap_sheet None "Bracket" "Games"
    (Some {| columns := ["date"; "winner_team"; "winner_score"];
             data := [["11-03-2025"; "Duke"; "80"]] |}) 300%Z
  = ({| ws := gap_sheet; requests := []; out := [] |},
     Err (MissingColumns ["loser_team"; "loser_score"; "site_designation"]
                         ["date"; "winner_team"; "winner_score"])).
Proof.
  exact (proj1 (append_missing_columns_untouched gap_sheet None "Bracket" "Games"
                  {| columns := ["date"; "winner_team"; "winner_score"];
                     data := [["11-03-2025"; "Duke"; "80"]] |} 300%Z
                  ltac:(vm_compute; reflexivity) ltac:(vm_compute; discriminate))).
Defined.

(** [col_letter] of the overwrite script is a bijective base-26 numeral:
    its label of [n] is made of the letters [A-Z] only, reads back to [n],
    and is empty exactly for [n = 0]. *)
Theorem col_letter_roundtrip (n : nat) :
  col_number (col_letter n) = n /\ all_upper (col_letter n) = true
  /\ (col_letter n = "" <-> n = 0).
Proof.
  destruct (col_letter_loop_number n n (le_n n)) as [H1 H2].
  unfold col_letter. split; [exact H1 | split; [exact H2 |]].
  split; intro H.
  - rewrite <- H1, H. reflexivity.
  - subst n. reflexivity.
Qed.

(** [combine_location] returns the empty string exactly when the venue's
    name, city and state all clean to empty. *)
Theorem combine_location_empty (v : venue) :
  combine_location v = "" <->
  clean (fullName v) = "" /\ clean (city v) = "" /\ clean (state v) = "".
Proof.
  unfold combine_location.
  set (n := clean (fullName v)). set (c := clean (city v)). set (s := clean (state v)).
  split.
  - intro H.
    destruct (String.eqb n "") eqn:En.
    + apply String.eqb_eq in En. split; [exact En|].
      rewrite En in H. cbn [String.eqb negb andb] in H.
      cbn [filter] in H.
      destruct (String.eqb c "") eqn:Ec; destruct (String.eqb s "") eqn:Es;
        cbn [negb String.concat] in H;
        apply String.eqb_eq in Ec || apply String.eqb_neq in Ec;
        apply String.eqb_eq in Es || apply String.eqb_neq in Es.
      * split; assumption.
      * contradiction.
      * contradiction.
      * apply str_app_eq_empty in H. contradiction.
    + exfalso. apply String.eqb_neq in En. apply En.
      set (place := String.concat ", " _) in H.
      destruct (String.eqb place ""); cbn [negb andb] in H;
        [exact H | exact (str_app_eq_empty _ _ H)].
  - intros [Hn [Hc Hs]]. rewrite Hn, Hc, Hs. reflexivity.
Qed.

(** Every row built from the scoreboard names its winner and its loser by
    team names that are already clean: no surrounding whitespace, never
    ["nan"], ["none"] or ["null"] in any case. *)
Theorem scraped_names_clean (evs : list event) (r : row) :
  In r (build_rows (parse_completed_games evs)) ->
  clean (PStr (winner_team r)) = winner_team r /\ clean (PStr (loser_team r)) = loser_team r.
Proof.
  unfold build_rows. intro H. apply in_map_iff in H as [g [<- Hg]].
  apply in_parse_completed_games in Hg as [ev [_ Hp]].
  destruct (parse_event_names ev g Hp) as [Hh Ha].
  unfold build_row. cbn [winner_team loser_team].
  destruct (Z.gtb (home_score g) (away_score g)); split; assumption.
Qed.

Lemma scraped_names_clean_witness :
  In {| winner_team := "Duke"; winner_score := 80; loser_team := "Army"; loser_score := 60;
        row_location := "Cameron Indoor Stadium" ++ loc_sep ++ "Durham, NC";
        site_designation := "H" |}
     (build_rows (parse_completed_games [sample_event " Duke " "80" "Army" "60" false]))
  /\ clean (PStr "Duke") = "Duke" /\ clean (PStr "Army") = "Army".
Proof.
  assert (H : In {| winner_team := "Duke"; winner_score := 80; loser_team := "Army";
                    loser_score := 60;
                    row_location := "Cameron Indoor Stadium" ++ loc_sep ++ "Durham, NC";
                    site_designation := "H" |}
     (build_rows (parse_completed_games [sample_event " Duke " "80" "Army" "60" false])))
    by (vm_compute; left; reflexivity).
  split; [exact H|].
  exact (scraped_names_clean [sample_event " Duke " "80" "Army" "60" false] _ H).
Defined.

(* ------------------------------------------------------------------ *)
(** ** Which rows the append writes, and what it reads back *)

Lemma filter_all {A} (f : A -> bool) (l : list A) :
  (forall x, f x = true) -> filter f l = l.
Proof. intro H. induction l as [|x l IH]; simpl; [reflexivity|]. now rewrite H, IH. Qed.

Lemma df_data_nonempty (df : dataframe) : df_empty df = false -> data df <> [].
Proof. unfold df_empty. destruct (columns df), (data df); congruence. Qed.

(** The run of the append script once the checks pass, with the rows it
    keeps given by the dedupe filter. *)
Lemma append_run_form (sh : sheet) (e title tab : string) (df : dataframe) (K : Z) :
  df_empty df = false -> missing_cols df = [] ->
  let L := scan_col (sheet_get sh rng_colA) 1 0 in
  let Kn := Z.to_nat (Z.max 0 K) in
  let lb := Nat.ltb 0 L && Nat.ltb 0 Kn in
  let keys := if lb then map (fun r => row_key (pad6 r)) (sheet_get sh (rng_AF (lb_start L Kn) L))
              else [] in
  let reqs0 := [GetReq rng_colA] ++ (if lb then [GetReq (rng_AF (lb_start L Kn) L)] else []) in
  let kept := filter (fun v => negb (key_in (row_key v) keys))
                     (map (map normalize_s) (selected_rows df)) in
  let dupes := length (filter (fun v => key_in (row_key v) keys)
                              (map (map normalize_s) (selected_rows df))) in
  let R := rng_AF (L + 1) (L + 1 + length kept - 1) in
  exists lines,
  run_append sh (Some e) title tab (Some df) K =
    (match kept with
     | [] => {| ws := sh; requests := reqs0; out := lines |}
     | _ => {| ws := sheet_update sh R kept;
               requests := reqs0 ++ [UpdateReq R kept; GetReq R]; out := lines |}
     end, Ok tt)
  /\ (kept <> [] ->
      In (Text (OKM ++ " CSV rows: " ++ nat_str (length (data df))
                ++ " | duplicates skipped: " ++ nat_str dupes
                ++ " | new rows written: " ++ nat_str (length kept))) lines
      /\ In (Text (OKM ++ " Rows read back from sheet: "
                   ++ nat_str (length (sheet_get (sheet_update sh R kept) R)))) lines).
Proof.
  intros He Hm.
  destruct (append_main_ok sh (Some e) title tab df K ltac:(discriminate) He Hm)
    as [lines H].
  rewrite prepare_rows_spec in H. cbn [fst snd] in H.
  exists lines. exact H.
Qed.

(** A dedupe lookback of zero or less turns the dedupe off: the script
    reads column A, writes every row of the CSV (normalized, in order) just
    below the last non-empty row of column A, and reads that range back. *)
Theorem append_no_lookback (sh : sheet) (e title tab : string) (df : dataframe) (K : Z) :
  (K <= 0)%Z -> df_empty df = false -> missing_cols df = [] ->
  let vals := map (map normalize_s) (selected_rows df) in
  let L := scan_col (sheet_get sh rng_colA) 1 0 in
  let R := rng_AF (L + 1) (L + 1 + length vals - 1) in
  snd (run_append sh (Some e) title tab (Some df) K) = Ok tt
  /\ requests (fst (run_append sh (Some e) title tab (Some df) K))
     = [GetReq rng_colA; UpdateReq R vals; GetReq R]
  /\ ws (fst (run_append sh (Some e) title tab (Some df) K)) = sheet_update sh R vals.
Proof.
  intros HK He Hm vals L R.
  destruct (append_run_form sh e title tab df K He Hm) as [lines [H _]].
  replace (Z.to_nat (Z.max 0 K)) with 0 in H by lia.
  rewrite andb_false_r in H. cbn [app] in H.
  rewrite filter_all in H by reflexivity. fold vals L R in H.
  assert (Hv : vals <> []).
  { unfold vals, selected_rows. intro Hn.
    apply map_eq_nil in Hn. apply map_eq_nil in Hn. exact (df_data_nonempty df He Hn). }
  destruct vals as [|v vs] eqn:Ev; [contradiction|].
  rewrite H. split; [reflexivity | split; reflexivity].
Qed.

Lemma append_no_lookback_witness :
  requests (fst (run_append gap_sheet (Some "{}") "Bracket" "Games" (Some nan_row_csv) 0%Z))
  = [GetReq rng_colA;
     UpdateReq (rng_AF 10 11) [["11-03-2025"; "Duke"; "80"; "Army"; "60"; "H"];
                               [""; ""; ""; ""; ""; ""]];
     GetReq (rng_AF 10 11)].
Proof.
  destruct (append_no_lookback gap_sheet "{}" "Bracket" "Games" nan_row_csv 0%Z
              ltac:(lia) ltac:(vm_compute; reflexivity) ltac:(vm_compute; reflexivity))
    as [_ [H _]].
  rewrite H. vm_compute. reflexivity.
Defined.

(** The append script sees a CSV only through its six required columns:
    two CSVs whose rows agree on those columns, whatever the order of the
    columns and whatever other columns they carry, give the same run. *)
Theorem append_reads_required_columns (sh : sheet) (env : option string)
    (title tab : string) (df1 df2 : dataframe) (K : Z) :
  df_empty df1 = false -> df_empty df2 = false ->
  missing_cols df1 = [] -> missing_cols df2 = [] ->
  selected_rows df1 = selected_rows df2 ->
  run_append sh env title tab (Some df1) K = run_append sh env title tab (Some df2) K.
Proof.
  intros He1 He2 Hm1 Hm2 Hr.
  assert (Hlen : length (data df1) = length (data df2)).
  { apply (f_equal (@length _)) in Hr. unfold selected_rows in Hr.
    now rewrite !length_map in Hr. }
  unfold run_append, append_main. rewrite He1, He2.
  unfold missing_cols in Hm1, Hm2. rewrite Hm1, Hm2.
  unfold selected_rows in Hr. rewrite Hr, Hlen. reflexivity.
Qed.

Lemma append_reads_required_columns_witness :
  run_append gap_sheet (Some "{}") "Bracket" "Games" (Some nan_row_csv) 1%Z
  = run_append gap_sheet (Some "{}") "Bracket" "Games" (Some nan_row_csv_reordered) 1%Z.
Proof.
  apply append_reads_required_columns; vm_compute; reflexivity.
Defined.

Lemma map_seq_nth {A B} (g : nat -> B) (h : A -> B) (d : A) (l : list A) : forall st,
  (forall i, i < length l -> g (st + i) = h (nth i l d)) ->
  map g (seq st (length l)) = map h l.
Proof.
  induction l as [|x l IH]; intros st H; simpl; [reflexivity|].
  f_equal.
  - specialize (H 0 ltac:(simpl; lia)). now rewrite Nat.add_0_r in H.
  - apply IH. intros i Hi. specialize (H (S i) ltac:(simpl; lia)).
    now replace (S st + i) with (st + S i) by lia.
Qed.

Lemma drop_empty_cells_nil (l : list string) :
  drop_empty_cells l = [] <-> has_nonempty l = false.
Proof.
  induction l as [|v l IH]; simpl; [tauto|].
  destruct v as [|ch v]; simpl; [exact IH|].
  split; discriminate.
Qed.

Lemma has_nonempty_rev (l : list string) : has_nonempty (rev l) = has_nonempty l.
Proof.
  unfold has_nonempty.
  destruct (existsb _ l) eqn:E1; destruct (existsb _ (rev l)) eqn:E2; try reflexivity.
  - apply existsb_exists in E1 as [v [Hv Hne]].
    assert (H : existsb (fun v => negb (String.eqb v "")) (rev l) = true)
      by (apply existsb_exists; exists v; split; [apply in_rev; now rewrite rev_involutive|exact Hne]).
    congruence.
  - apply existsb_exists in E2 as [v [Hv Hne]].
    assert (H : existsb (fun v => negb (String.eqb v "")) l = true)
      by (apply existsb_exists; exists v; split; [apply in_rev; exact Hv | exact Hne]).
    congruence.
Qed.

Lemma trim_cells_nil (r : list string) : trim_cells r = [] <-> has_nonempty r = false.
Proof.
  unfold trim_cells. rewrite <- has_nonempty_rev, <- drop_empty_cells_nil.
  split; intro H; [|now rewrite H].
  destruct (drop_empty_cells (rev r)) as [|x l]; [reflexivity|].
  simpl in H. destruct (rev l); discriminate.
Qed.




Lemma height_sheet_update (sh : sheet) (rg : range) (vals : list (list string)) :
  height (sheet_update sh rg vals) = Nat.max (height sh) (r_lo rg + length vals - 1).
Proof. reflexivity. Qed.






(* ------------------------------------------------------------------ *)
(** ** Running the append twice *)

Lemma drop_empty_rows_keeps (x : list string) (l : list (list string)) :
  In x l -> x <> [] -> In x (drop_empty_rows l).
Proof.
  induction l as [|y l IH]; simpl; [tauto|]. intros [-> | H] Hx.
  - destruct x; [contradiction | left; reflexivity].
  - destruct y; [exact (IH H Hx) | right; exact H].
Qed.

Lemma trim_rows_keeps (x : list string) (l : list (list string)) :
  In x l -> x <> [] -> In x (trim_rows l).
Proof.
  intros H Hx. unfold trim_rows. apply in_rev. rewrite rev_involutive.
  apply drop_empty_rows_keeps; [apply in_rev; now rewrite rev_involutive | exact Hx].
Qed.

(** A row of the window that has a non-empty cell is among the rows read. *)
Lemma sheet_get_row_in (sh : sheet) (a b r : nat) :
  a <= r <= b -> r <= height sh ->
  trim_cells (map (cell sh r) (seq 0 6)) <> [] ->
  In (trim_cells (map (cell sh r) (seq 0 6))) (sheet_get sh (rng_AF a b)).
Proof.
  intros Hr Hh Hne. unfold sheet_get, last_row. cbn [rng_AF r_hi r_lo c_lo c_hi].
  apply trim_rows_keeps; [|exact Hne].
  apply in_map_iff. exists r. split; [reflexivity|].
  apply in_seq. lia.
Qed.

Lemma drop_empty_cells_split (l : list string) :
  exists k, l = repeat "" k ++ drop_empty_cells l.
Proof.
  induction l as [|v l IH]; [exists 0; reflexivity|].
  destruct v as [|ch v].
  - destruct IH as [k Hk]. exists (S k). simpl. now rewrite <- Hk.
  - exists 0. reflexivity.
Qed.

Lemma trim_cells_split (r : list string) : exists k, r = trim_cells r ++ repeat "" k.
Proof.
  destruct (drop_empty_cells_split (rev r)) as [k Hk]. exists k.
  unfold trim_cells. rewrite <- (rev_involutive r) at 1. rewrite Hk at 1.
  now rewrite rev_app_distr, rev_repeat.
Qed.

Lemma firstn_repeat_le {A} (x : A) (k : nat) : forall m, k <= m ->
  firstn k (repeat x m) = repeat x k.
Proof.
  induction k as [|k IH]; intros m Hm; [reflexivity|].
  destruct m as [|m]; [lia|]. simpl. f_equal. apply IH. lia.
Qed.

(** Padding a row of six cells read back, as [main] does, gives the row. *)
Lemma pad6_trim_cells (r : list string) : length r = 6 -> pad6 (trim_cells r) = r.
Proof.
  intro H6. destruct (trim_cells_split r) as [k Hk].
  set (t := trim_cells r) in *. clearbody t.
  unfold pad6. transitivity (t ++ repeat "" k); [|symmetry; exact Hk].
  rewrite Hk, length_app, repeat_length in H6.
  rewrite firstn_app. rewrite firstn_all2 by lia.
  rewrite firstn_repeat_le by lia. f_equal. f_equal. lia.
Qed.

Lemma update_row (sh : sheet) (st i : nat) (rows : list (list string)) :
  i < length rows -> length (nth i rows []) = 6 ->
  map (cell (sheet_update sh (rng_AF st (st + length rows - 1)) rows) (st + i)) (seq 0 6)
  = nth i rows [].
Proof.
  intros Hi Hw.
  replace (seq 0 6) with (seq 0 (length (nth i rows []))) by now rewrite Hw.
  rewrite <- (map_id (nth i rows [])) at 2.
  apply map_seq_nth with (d := ""). intros c Hc. cbn [cell sheet_update].
  unfold in_range. cbn [rng_AF r_lo r_hi c_lo c_hi].
  replace (Nat.leb st (st + i) && Nat.leb (st + i) (st + length rows - 1)
           && Nat.leb 0 (0 + c) && Nat.leb (0 + c) 5) with true
    by (symmetry; repeat rewrite andb_true_iff; rewrite !Nat.leb_le; lia).
  replace (st + i - st) with i by lia. rewrite (nth_error_nth' rows []) by exact Hi.
  replace (0 + c - 0) with c by lia. rewrite (nth_error_nth' _ "") by lia.
  reflexivity.
Qed.

(** After a write of rows below the last non-empty row of column A, each
    with a non-empty first cell, the locator finds the last row written. *)
Lemma locator_after_write (sh : sheet) (rows : list (list string)) :
  let L := scan_col (sheet_get sh rng_colA) 1 0 in
  rows <> [] -> Forall (fun r => length r = 6) rows ->
  (forall v, In v rows -> normalize_s (nth 0 v "") <> "") ->
  scan_col (sheet_get (sheet_update sh (rng_AF (L + 1) (L + 1 + length rows - 1)) rows)
                      rng_colA) 1 0
  = L + length rows.
Proof.
  intros L Hne Hw Hd.
  assert (HN : 1 <= length rows) by (destruct rows; [contradiction | simpl; lia]).
  set (sh' := sheet_update sh (rng_AF (L + 1) (L + 1 + length rows - 1)) rows).
  assert (Hh : height sh' = Nat.max (height sh) (L + length rows))
    by (unfold sh'; rewrite height_sheet_update; cbn [rng_AF r_lo]; lia).
  assert (Hlast : col_a_nonempty sh' (L + length rows) = true).
  { unfold col_a_nonempty, sh'.
    replace (L + length rows) with ((L + 1) + (length rows - 1)) by lia.
    assert (Hi : length rows - 1 < length rows) by lia.
    pose proof (update_row sh (L + 1) (length rows - 1) rows Hi) as Hr.
    rewrite Forall_forall in Hw. specialize (Hr (Hw _ (nth_In rows [] Hi))).
    apply (f_equal (fun l => nth 0 l "")) in Hr. cbn [seq map nth] in Hr. rewrite Hr.
    apply negb_true_iff, String.eqb_neq, Hd, nth_In, Hi. }
  assert (Hafter : forall r, L + length rows < r <= height sh' -> col_a_nonempty sh' r = false).
  { intros r Hr. unfold col_a_nonempty, sh'. cbn [cell sheet_update]. unfold in_range.
    cbn [rng_AF r_lo r_hi c_lo c_hi].
    rewrite (proj2 (Nat.leb_gt r (L + 1 + length rows - 1))) by lia.
    rewrite andb_false_r. cbn [andb].
    fold (col_a_nonempty sh r).
    destruct (locator_spec sh) as [[HL0 Hall] | [HL [_ Hall]]].
    - apply Hall. lia.
    - change (scan_col (sheet_get sh rng_colA) 1 0) with L in Hall. apply Hall. lia. }
  destruct (locator_spec sh') as [[HL0 Hall] | [HL [Hne' Hall]]].
  - exfalso. rewrite Hall in Hlast; [discriminate | lia].
  - set (L2 := scan_col (sheet_get sh' rng_colA) 1 0) in *.
    destruct (Nat.lt_trichotomy L2 (L + length rows)) as [Hlt | [Heq | Hgt]].
    + rewrite Hall in Hlast; [discriminate | lia].
    + exact Heq.
    + rewrite Hafter in Hne'; [discriminate | lia].
Qed.

Lemma list_str_eqb_refl (l : list string) : list_str_eqb l l = true.
Proof. induction l as [|x l IH]; simpl; [reflexivity|]. now rewrite String.eqb_refl, IH. Qed.

Lemma normalize_s_idem (s : string) : normalize_s (normalize_s s) = normalize_s s.
Proof. apply normalize_idem. Qed.

(** The rows [main] builds from a CSV whose dates are all non-empty: six
    cells, a non-empty first cell, and their own fingerprint. *)
Lemma normalized_rows_props (df : dataframe) :
  Forall (fun r => normalize_s (df_at (columns df) r "date") <> "") (data df) ->
  forall v, In v (map (map normalize_s) (selected_rows df)) ->
  length v = 6 /\ normalize_s (nth 0 v "") <> "" /\ row_key v = v.
Proof.
  intros Hd v Hv. unfold selected_rows in Hv. rewrite map_map in Hv.
  apply in_map_iff in Hv as [r [<- Hr]].
  rewrite Forall_forall in Hd. specialize (Hd r Hr).
  split; [now rewrite !length_map|]. split.
  - cbn [CSV_COLS map nth]. now rewrite normalize_s_idem.
  - unfold row_key. rewrite map_map. apply map_ext. intro a. apply normalize_s_idem.
Qed.

Lemma has_nonempty_first (v : list string) : normalize_s (nth 0 v "") <> "" ->
  has_nonempty v = true.
Proof.
  destruct v as [|x v]; simpl; [intro H; now contradiction H|].
  intro H. destruct (String.eqb x "") eqn:E; [|reflexivity].
  apply String.eqb_eq in E. subst x. now contradiction H.
Qed.

(** After the first write, every row written is found again by the second
    run's dedupe, once the lookback covers the rows written. *)
Lemma rerun_keys (sh : sheet) (rows : list (list string)) (Kn : nat) :
  let L := scan_col (sheet_get sh rng_colA) 1 0 in
  let sh1 := sheet_update sh (rng_AF (L + 1) (L + 1 + length rows - 1)) rows in
  let L2 := scan_col (sheet_get sh1 rng_colA) 1 0 in
  rows <> [] -> length rows <= Kn ->
  (forall v, In v rows -> length v = 6 /\ normalize_s (nth 0 v "") <> "" /\ row_key v = v) ->
  Nat.ltb 0 L2 && Nat.ltb 0 Kn = true
  /\ forall v, In v rows ->
     key_in (row_key v)
            (map (fun r => row_key (pad6 r)) (sheet_get sh1 (rng_AF (lb_start L2 Kn) L2)))
     = true.
Proof.
  intros L sh1 L2 Hne HKn Hp.
  assert (HN : 1 <= length rows) by (destruct rows; [contradiction | simpl; lia]).
  assert (Hw : Forall (fun r => length r = 6) rows)
    by (apply Forall_forall; intros v Hv; apply (Hp v Hv)).
  assert (HL2 : L2 = L + length rows)
    by exact (locator_after_write sh rows Hne Hw (fun v Hv => proj1 (proj2 (Hp v Hv)))).
  split.
  - rewrite HL2. apply andb_true_intro. split; apply Nat.ltb_lt; lia.
  - intros v Hv. destruct (Hp v Hv) as [Hv6 [Hv0 Hvk]].
    apply (In_nth rows v []) in Hv as [i [Hi Hvi]].
    assert (Hrow : map (cell sh1 ((L + 1) + i)) (seq 0 6) = v).
    { rewrite <- Hvi. apply update_row; [exact Hi | now rewrite Hvi]. }
    assert (Hin : In (trim_cells (map (cell sh1 ((L + 1) + i)) (seq 0 6)))
                     (sheet_get sh1 (rng_AF (lb_start L2 Kn) L2))).
    { apply sheet_get_row_in.
      - unfold lb_start. rewrite HL2. lia.
      - unfold sh1. rewrite height_sheet_update. cbn [rng_AF r_lo]. lia.
      - rewrite Hrow. intro E. apply trim_cells_nil in E.
        rewrite has_nonempty_first in E by exact Hv0. discriminate. }
    rewrite Hrow in Hin.
    unfold key_in. apply existsb_exists.
    exists (row_key (pad6 (trim_cells v))). split.
    + apply in_map_iff. exists (trim_cells v). split; [reflexivity | exact Hin].
    + rewrite pad6_trim_cells by exact Hv6. apply list_str_eqb_refl.
Qed.

Lemma reqs0_no_update (b : bool) (a r rg : range) (rows : list (list string)) :
  ~ In (UpdateReq rg rows) ([GetReq a] ++ (if b then [GetReq r] else [])).
Proof. destruct b; simpl; intuition discriminate. Qed.

Lemma reqs_update_eq (b : bool) (a r rg R : range) (rows vals : list (list string)) :
  In (UpdateReq rg rows) (([GetReq a] ++ (if b then [GetReq r] else []))
                          ++ [UpdateReq R vals; GetReq R]) ->
  rg = R /\ rows = vals.
Proof.
  intro H. apply in_app_or in H as [H | H]; [now apply reqs0_no_update in H|].
  destruct H as [H | [H | []]]; [injection H as -> ->; auto | discriminate].
Qed.

Ltac no_update H :=
  first [ now apply reqs0_no_update in H | now apply (reqs0_no_update true) in H ].

Ltac update_eq H :=
  first [ apply reqs_update_eq in H as [_ ->] | apply (reqs_update_eq true) in H as [_ ->] ].

(** Running [append_games_to_sheet.py] a second time with the same CSV and
    a lookback of at least the CSV's row count, when every CSV row has a
    non-empty date: no row written by the first run is written again, and
    when the first run wrote every CSV row the second run writes nothing
    and leaves the sheet as the first run left it. *)
Theorem append_rerun (sh : sheet) (e title tab : string) (df : dataframe) (K : Z) :
  df_empty df = false -> missing_cols df = [] ->
  (Z.of_nat (length (data df)) <= K)%Z ->
  Forall (fun r => normalize_s (df_at (columns df) r "date") <> "") (data df) ->
  let w1 := fst (run_append sh (Some e) title tab (Some df) K) in
  let w2 := fst (run_append (ws w1) (Some e) title tab (Some df) K) in
  (forall rg1 rows1 rg2 rows2,
     In (UpdateReq rg1 rows1) (requests w1) ->
     In (UpdateReq rg2 rows2) (requests w2) ->
     forall v, In v rows2 -> ~ In v rows1)
  /\ (forall rg1 rows1,
        In (UpdateReq rg1 rows1) (requests w1) ->
        length rows1 = length (data df) ->
        ws w2 = ws w1 /\ forall rg rows, ~ In (UpdateReq rg rows) (requests w2)).
Proof.
  intros He Hm HK Hd w1 w2.
  pose proof (normalized_rows_props df Hd) as Hall.
  assert (HKn : length (data df) <= Z.to_nat (Z.max 0 K)) by lia.
  assert (Hsel : length (map (map normalize_s) (selected_rows df)) = length (data df))
    by (unfold selected_rows; now rewrite !length_map).
  destruct (append_run_form sh e title tab df K He Hm) as [lines1 [H1 _]].
  unfold w2, w1 in *. clear w1 w2. rewrite H1. clear H1.
  match goal with
  | |- context [match filter ?f ?l with [] => _ | _ :: _ => _ end] =>
      destruct (filter f l) as [|k0 ks] eqn:Ek1
  end.
  { cbn [fst requests]. split.
    - intros rg1 rows1 rg2 rows2 Hin. no_update Hin.
    - intros rg1 rows1 Hin. no_update Hin. }
  cbn [fst ws requests].
  assert (Hk1 : forall v, In v (k0 :: ks) ->
                  In v (map (map normalize_s) (selected_rows df))).
  { intros v Hv. rewrite <- Ek1 in Hv. now apply filter_In in Hv as [Hv _]. }
  assert (Hlen1 : length (k0 :: ks) <= Z.to_nat (Z.max 0 K)).
  { rewrite <- Ek1. etransitivity; [apply filter_length_le|]. lia. }
  destruct (rerun_keys sh (k0 :: ks) (Z.to_nat (Z.max 0 K)) ltac:(discriminate) Hlen1
              (fun v Hv => Hall v (Hk1 v Hv))) as [Hlb Hkeys].
  match goal with
  | |- context [run_append ?s1 (Some e) _ _ (Some df) K] =>
      destruct (append_run_form s1 e title tab df K He Hm) as [lines2 [H2 _]]
  end.
  rewrite H2. clear H2. rewrite Hlb.
  match goal with
  | |- context [match filter ?f ?l with [] => _ | _ :: _ => _ end] =>
      destruct (filter f l) as [|k1 ks2] eqn:Ek2
  end.
  - cbn [fst ws requests]. split.
    + intros rg1 rows1 rg2 rows2 _ Hin. no_update Hin.
    + intros rg1 rows1 _ _. split; [reflexivity|].
      intros rg rows Hin. no_update Hin.
  - cbn [fst ws requests].
    assert (Hnot : forall v, In v (k1 :: ks2) -> In v (k0 :: ks) -> False).
    { intros v Hv2 Hv1. rewrite <- Ek2 in Hv2. apply filter_In in Hv2 as [_ Hv2].
      rewrite (Hkeys v Hv1) in Hv2. discriminate. }
    split.
    + intros rg1 rows1 rg2 rows2 Hin1 Hin2 v Hv2 Hv1.
      update_eq Hin1. update_eq Hin2.
      exact (Hnot v Hv2 Hv1).
    + intros rg1 rows1 Hin1 Hl. update_eq Hin1.
      exfalso. apply (Hnot k1); [now left|].
      assert (Hfa : forall v, In v (map (map normalize_s) (selected_rows df)) ->
                      In v (k0 :: ks)).
      { rewrite <- Ek1. intros v Hv. apply filter_In. split; [exact Hv|].
        match type of Ek1 with filter ?f ?l = _ =>
          destruct (f v) eqn:Efv; [reflexivity|] end.
        rewrite <- Hsel in Hl. rewrite <- Ek1 in Hl.
        apply filter_length_forallb in Hl. rewrite forallb_forall in Hl.
        rewrite (Hl v Hv) in Efv. discriminate. }
      apply Hfa. rewrite <- Ek2 in *. 
      assert (Hk1in : In k1 (k1 :: ks2)) by now left.
      rewrite <- Ek2 in Hk1in. now apply filter_In in Hk1in as [Hk1in _].
Qed.

Lemma append_rerun_witness :
  let w1 := fst (run_append gap_sheet (Some "{}") "Bracket" "Games" (Some two_games_csv) 2%Z) in
  let w2 := fst (run_append (ws w1) (Some "{}") "Bracket" "Games" (Some two_games_csv) 2%Z) in
  ws w2 = ws w1 /\ forall rg rows, ~ In (UpdateReq rg rows) (requests w2).
Proof.
  apply (proj2 (append_rerun gap_sheet "{}" "Bracket" "Games" two_games_csv 2%Z
                  ltac:(vm_compute; reflexivity) ltac:(vm_compute; reflexivity)
                  ltac:(vm_compute; discriminate)
                  ltac:(repeat constructor; vm_compute; discriminate))
           (rng_AF 10 11)
           [["11-03-2025"; "Duke"; "80"; "Army"; "60"; "H"];
            ["11-04-2025"; "Kansas"; "71"; "Rice"; "64"; "N"]]).
  - vm_compute. right. right. left. reflexivity.
  - reflexivity.
Defined.

Lemma py_eqb_refl (x : pyval) : py_eqb x x = true.
Proof. now apply py_eqb_num. Qed.

(** One page scan keeps events of the page only, drops none of the events
    already kept, and leaves every truthy identifier of the page equal to the
    identifier of a kept event. *)
Lemma scan_page_cover (evs : list event) : forall seen all n,
  seen = map ev_id all ->
  let '(seen', all', _) := scan_page evs seen all n in
  seen' = map ev_id all'
  /\ (forall e, In e all' -> In e all \/ In e evs)
  /\ (forall e, In e all -> In e all')
  /\ (forall e, In e evs -> truthy (ev_id e) = true ->
        exists e', In e' all' /\ py_eqb (ev_id e) (ev_id e') = true).
Proof.
  induction evs as [|x evs IH]; intros seen all n Hs; simpl.
  - split; [exact Hs|]. split; [now left|]. split; [now auto|]. intros e [].
  - destruct (truthy (ev_id x) && negb (py_in (ev_id x) seen)) eqn:E.
    + specialize (IH (ev_id x :: seen) (x :: all) (S n) ltac:(now rewrite Hs)).
      destruct (scan_page evs (ev_id x :: seen) (x :: all) (S n)) as [[s' a'] k].
      destruct IH as [H0 [H1 [H2 H3]]].
      split; [exact H0|]. split; [|split].
      * intros e He. destruct (H1 e He) as [[<-|Ha]|Hb]; auto.
      * intros e He. apply H2. now right.
      * intros e [<-|He] Ht; [|now apply H3].
        exists x. split; [apply H2; now left | apply py_eqb_refl].
    + specialize (IH seen all n Hs).
      destruct (scan_page evs seen all n) as [[s' a'] k].
      destruct IH as [H0 [H1 [H2 H3]]].
      split; [exact H0|]. split; [|split].
      * intros e He. destruct (H1 e He); auto.
      * exact H2.
      * intros e [<-|He] Ht; [|now apply H3].
        rewrite Ht in E. simpl in E. apply negb_false_iff in E.
        rewrite Hs in E. unfold py_in in E. apply existsb_exists in E as [y [Hy Hey]].
        apply in_map_iff in Hy as [e' [<- He']].
        exists e'. split; [now apply H2 | exact Hey].
Qed.

Lemma fetch_loop_cover (page : nat -> list event) (ps fuel : nat) :
  forall offset seen all offs res,
  seen = map ev_id all ->
  fetch_loop fuel page ps offset seen all = (offs, Some res) ->
  (forall e, In e res -> In e all \/ exists o, In o offs /\ In e (page o))
  /\ (forall e, In e all -> In e res)
  /\ (forall o e, In o offs -> In e (page o) -> truthy (ev_id e) = true ->
        exists e', In e' res /\ py_eqb (ev_id e) (ev_id e') = true).
Proof.
  induction fuel as [|fuel IH]; intros offset seen all offs res Hs Hrun; [discriminate|].
  simpl in Hrun.
  destruct (page offset) as [|e0 evs0] eqn:Hpage.
  - injection Hrun as <- <-.
    split; [intros e He; left; now rewrite <- in_rev in He|].
    split; [intros e He; now rewrite <- in_rev|].
    intros o e [<-|[]] He. rewrite Hpage in He. destruct He.
  - pose proof (scan_page_cover (e0 :: evs0) seen all 0 Hs) as Hc.
    destruct (scan_page (e0 :: evs0) seen all 0) as [[seen' all'] new].
    destruct Hc as [H0 [H1 [H2 H3]]].
    destruct (Nat.eqb new 0 || Nat.ltb (length (e0 :: evs0)) ps).
    + injection Hrun as <- <-.
      split; [|split].
      * intros e He. rewrite <- in_rev in He. destruct (H1 e He) as [Ha|Hb]; [now left|].
        right. exists offset. split; [now left | now rewrite Hpage].
      * intros e He. rewrite <- in_rev. now apply H2.
      * intros o e [<-|[]] He Ht. rewrite Hpage in He.
        destruct (H3 e He Ht) as [e' [He' Heq]].
        exists e'. split; [now rewrite <- in_rev | exact Heq].
    + destruct (fetch_loop fuel page ps (offset + ps) seen' all') as [offs' res'] eqn:Hrec.
      injection Hrun as <- ->.
      destruct (IH (offset + ps) seen' all' offs' res H0 Hrec) as [I1 [I2 I3]].
      split; [|split].
      * intros e He. destruct (I1 e He) as [Ha|[o [Ho He']]].
        -- destruct (H1 e Ha) as [Hb|Hb]; [now left|].
           right. exists offset. split; [now left | now rewrite Hpage].
        -- right. exists o. split; [now right | exact He'].
      * intros e He. apply I2, H2, He.
      * intros o e [<-|Ho] He Ht; [|now apply (I3 o)].
        rewrite Hpage in He. destruct (H3 e He Ht) as [e' [He' Heq]].
        exists e'. split; [now apply I2 | exact Heq].
Qed.

(** [fetch_scoreboard_all] returns only events of the pages it requested,
    and loses none: every event with a truthy identifier on a requested page
    has an event of the result with an equal identifier. *)
Theorem fetch_scoreboard_all_complete (fuel : nat) (page : nat -> list event)
    (page_size : nat) (offs : list nat) (res : list event) :
  fetch_scoreboard_all fuel page page_size = (offs, Some res) ->
  (forall e, In e res -> exists o, In o offs /\ In e (page o))
  /\ (forall o e, In o offs -> In e (page o) -> truthy (ev_id e) = true ->
        exists e', In e' res /\ py_eqb (ev_id e) (ev_id e') = true).
Proof.
  intro Hrun.
  destruct (fetch_loop_cover page page_size fuel 0 [] [] offs res eq_refl Hrun)
    as [H1 [_ H3]].
  split; [|exact H3].
  intros e He. destruct (H1 e He) as [[]|H]. exact H.
Qed.

Lemma fetch_scoreboard_all_complete_witness :
  (exists o, In o [0; 2; 4] /\ In (ev_with_id "3") (sample_page o))
  /\ (exists e', In e' [ev_with_id "1"; ev_with_id "2"; ev_with_id "3"; ev_with_id "4"]
                /\ py_eqb (ev_id (ev_with_id "2")) (ev_id e') = true).
Proof.
  destruct (fetch_scoreboard_all_complete 10 sample_page 2 [0; 2; 4]
              [ev_with_id "1"; ev_with_id "2"; ev_with_id "3"; ev_with_id "4"]
              ltac:(vm_compute; reflexivity)) as [H1 H2].
  split.
  - apply H1. right. right. left. reflexivity.
  - apply (H2 2 (ev_with_id "2")); [right; left; reflexivity | left; reflexivity | reflexivity].
Defined.

Lemma filter_split_length {A} (f : A -> bool) (l : list A) :
  length (filter f l) + length (filter (fun x => negb (f x)) l) = length l.
Proof. induction l as [|x l IH]; simpl; [reflexivity|]. destruct (f x); simpl; lia. Qed.

Lemma append_summary_form (sh : sheet) (e title tab : string) (df : dataframe) (K : Z) :
  df_empty df = false -> missing_cols df = [] ->
  exists keys reqs0 lines,
  let rows := map (fun r => map (df_at (columns df) r) CSV_COLS) (data df) in
  let csv_rows := fst (prepare_rows keys rows) in
  let dupes := snd (prepare_rows keys rows) in
  (exists ws', run_append sh (Some e) title tab (Some df) K =
        (match csv_rows with
         | [] => {| ws := ws'; requests := reqs0; out := lines |}
         | _ => {| ws := ws'; requests := reqs0 ++ [UpdateReq (rng_AF (scan_col (sheet_get sh rng_colA) 1 0 + 1)
                      (scan_col (sheet_get sh rng_colA) 1 0 + 1 + length csv_rows - 1)) csv_rows;
                      GetReq (rng_AF (scan_col (sheet_get sh rng_colA) 1 0 + 1)
                      (scan_col (sheet_get sh rng_colA) 1 0 + 1 + length csv_rows - 1))];
                   out := lines |}
         end, Ok tt))
  /\ In (Text (OKM ++ " CSV rows: " ++ nat_str (length (data df))
               ++ " | duplicates skipped: " ++ nat_str dupes
               ++ match csv_rows with
                  | [] => " | new rows: 0"
                  | _ => " | new rows written: " ++ nat_str (length csv_rows)
                  end)) lines
  /\ (forall rg vals, ~ In (UpdateReq rg vals) reqs0).
Proof.
  intros He Hm. unfold missing_cols in Hm.
  unfold run_append, append_main. rewrite He, Hm.
  unfold bind at 1. cbn [get_client ret].
  unfold bind at 1. cbn [last_nonempty_row_in_col_a bind ws_get ret ws requests out].
  unfold bind at 1. rewrite build_existing_keys_run.
  destruct (Nat.ltb 0 _ && Nat.ltb 0 _); cbn [ws requests out app];
  (match goal with |- context [prepare_rows ?k ?rows] =>
     exists k; destruct (prepare_rows k rows) as [cr d] end); cbn [fst snd];
  (destruct cr as [|r0 cr'];
   [ rewrite mapM_print; eexists; eexists; split; [eexists; reflexivity|];
     split; [simpl; tauto | intros rg vals Hin; simpl in Hin; intuition discriminate] |]);
  unfold bind at 1; cbn [ws_update ws requests out];
  unfold bind at 1; cbn [ws_get ws requests out];
  rewrite mapM_print; cbn [ws requests out]; rewrite <- app_assoc;
  (eexists; eexists; split; [eexists; reflexivity|];
   split; [simpl; tauto | intros rg vals Hin; simpl in Hin; intuition discriminate]).
Qed.

(** The summary line of [append_games_to_sheet.py] adds up: with the
    credentials present and a CSV holding the required columns, the run
    prints [CSV rows: n | duplicates skipped: d | new rows ...] with
    [d + k = n], where [k] rows are written in the one update request the
    run sends, and no update request at all when [k = 0]. *)
Theorem append_summary_counts (sh : sheet) (e title tab : string) (df : dataframe) (K : Z) :
  df_empty df = false -> missing_cols df = [] ->
  let w' := fst (run_append sh (Some e) title tab (Some df) K) in
  exists d k, d + k = length (data df)
  /\ In (Text (OKM ++ " CSV rows: " ++ nat_str (length (data df))
               ++ " | duplicates skipped: " ++ nat_str d
               ++ (if Nat.eqb k 0 then " | new rows: 0"
                   else " | new rows written: " ++ nat_str k))) (out w')
  /\ (forall rg rows, In (UpdateReq rg rows) (requests w') -> length rows = k)
  /\ (k = 0 <-> forall rg rows, ~ In (UpdateReq rg rows) (requests w')).
Proof.
  intros He Hm w'. unfold w'. clear w'.
  destruct (append_summary_form sh e title tab df K He Hm)
    as [keys [reqs0 [lines [[ws' Hrun] [Hout Hno]]]]].
  rewrite Hrun. clear Hrun.
  set (rows := map (fun r => map (df_at (columns df) r) CSV_COLS) (data df)) in *.
  pose proof (prepare_rows_spec keys rows) as Hp.
  pose proof (filter_split_length (fun v => key_in (row_key v) keys)
                (map (map normalize_s) rows)) as Hs.
  destruct (prepare_rows keys rows) as [cr d]. cbn [fst snd] in *.
  injection Hp as Hc Hd.
  assert (Hcnt : d + length cr = length (data df))
    by (rewrite Hc, Hd; etransitivity; [exact Hs | unfold rows; now rewrite !length_map]).
  clear Hs Hc Hd.
  exists d, (length cr).
  destruct cr as [|r0 cr']; cbn [fst requests out Nat.eqb length] in *.
  - split; [lia|]. split; [exact Hout|].
    split; [intros rg vals Hin; now destruct (Hno _ _ Hin)|].
    split; [intros _ rg vals Hin; exact (Hno _ _ Hin) | reflexivity].
  - split; [exact Hcnt|]. split; [exact Hout|]. split.
    + intros rg vals Hin. apply in_app_or in Hin as [Hin|Hin];
        [now destruct (Hno _ _ Hin)|].
      destruct Hin as [H|[H|[]]]; [injection H as _ <-; reflexivity | discriminate].
    + split; [discriminate|]. intro H. exfalso. eapply H.
      apply in_or_app. right. left. reflexivity.
Qed.

(** On the gap tab, the all-[nan] CSV row reads as a blank row of the
    lookback window: one duplicate skipped and one row written. *)
Lemma append_summary_counts_witness :
  let w' := fst (run_append gap_sheet (Some "{}") "Bracket" "Games" (Some nan_row_csv) 300%Z) in
  exists d k, d + k = length (data nan_row_csv)
  /\ In (Text (OKM ++ " CSV rows: " ++ nat_str (length (data nan_row_csv))
               ++ " | duplicates skipped: " ++ nat_str d
               ++ (if Nat.eqb k 0 then " | new rows: 0"
                   else " | new rows written: " ++ nat_str k))) (out w')
  /\ (forall rg rows, In (UpdateReq rg rows) (requests w') -> length rows = k)
  /\ (k = 0 <-> forall rg rows, ~ In (UpdateReq rg rows) (requests w')).
Proof.
  exact (append_summary_counts gap_sheet "{}" "Bracket" "Games" nan_row_csv 300%Z
           ltac:(vm_compute; reflexivity) ltac:(vm_compute; reflexivity)).
Defined.
